(** * PowerCore feed-rate governor (klippy/extras/powercore.py)

    A shallow embedding of the [PowerCore] and [PowerCorePWMReader] classes
    and of the collaborators they call, followed by the properties of the
    governor: unit conversion, feed-rate band, configuration validation,
    enable/disable state machine and duty-cycle rounding.

    Numbers.  Python [float]s are embedded as exact rationals [Q]; the
    arithmetic of the source ([+], [-], [*], comparisons, [round]) is the
    exact one, so binary64 rounding error is outside the model.  Numeric
    equalities are stated with [==] (Qeq).  Where a statement about the
    exact number would not survive that rounding (the upper end of the
    feed-rate band), it is stated through the expression the code evaluates
    and the difference is shown on binary64 numbers. *)

From Stdlib Require Import QArith Qround Qabs ZArith Lia Lqa List.
From Stdlib Require Import PrimFloat.
From stdpp Require Import gmap strings.

Local Open Scope Q_scope.

(** ** Python numerics *)

Module Py.

(** Round half to even, the rule [round] uses on the exact value. *)
Definition round_half_even (x : Q) : Z :=
  let f := Qfloor x in
  match Qcompare (x - inject_Z f) (1 # 2) with
  | Lt => f
  | Gt => (f + 1)%Z
  | Eq => if Z.even f then f else (f + 1)%Z
  end.

Definition pow10 (n : Z) : Q := inject_Z (10 ^ n).

(** [round(x, ndigits)] of a float. *)
Definition round (x : Q) (ndigits : Z) : Q :=
  if (0 <=? ndigits)%Z
  then inject_Z (round_half_even (x * pow10 ndigits)) / pow10 ndigits
  else inject_Z (round_half_even (x / pow10 (- ndigits))) * pow10 (- ndigits).

Definition Qltb (x y : Q) : bool := negb (Qle_bool y x).

End Py.

(** ** Exceptions and the state-and-exception monad

    Methods mutate the objects they are handed and may raise; a raised
    exception leaves every mutation made before it in place, as in Python.
    [M S A] is a computation over a store [S] that returns an [A] or raises. *)

Inductive complaint :=
| MustBeSpecified
| UnableToParse
| BelowMinimum (minval : Q)
| AboveMaximum (maxval : Q)
| NotAbove (above : Q)
| NotBelow (below : Q).

Inductive exn :=
| ConfigError (opt : string) (why : complaint)
| ValueError (msg : string).

Inductive outcome (A : Type) :=
| Return (a : A)
| Raise (e : exn).
Arguments Return {A} a.
Arguments Raise {A} e.

Definition M (S A : Type) : Type := S -> outcome A * S.

Definition run {S A} (c : M S A) (s : S) : outcome A * S := c s.

#[global] Instance M_ret {S} : MRet (M S) :=
  fun A a s => (Return a, s).

#[global] Instance M_bind {S} : MBind (M S) :=
  fun A B k c s =>
    match c s with
    | (Return a, s') => k a s'
    | (Raise e, s') => (Raise e, s')
    end.

Definition raise {S A} (e : exn) : M S A := fun s => (Raise e, s).
Definition gets {S A} (f : S -> A) : M S A := fun s => (Return (f s), s).
Definition modify {S} (f : S -> S) : M S unit := fun s => (Return tt, f s).
Definition lift {S A} (r : outcome A) : M S A := fun s => (r, s).

(** ** configfile.ConfigWrapper *)

Module Config.

(** Modelled from the spec: [configfile.ConfigWrapper] is not among the
    sources.  A configured option, classified by how its text reads: not a
    number, an integer literal, or another float literal. *)
Inductive entry :=
| EntryText (s : string)
| EntryInt (z : Z)
| EntryFloat (q : Q).

Definition parse_float (e : entry) : option Q :=
  match e with
  | EntryText _ => None
  | EntryInt z => Some (inject_Z z)
  | EntryFloat q => Some q
  end.

Definition parse_int (e : entry) : option Z :=
  match e with
  | EntryInt z => Some z
  | _ => None
  end.

Definition bound_check (bound : option Q) (bad : Q -> bool) (why : Q -> complaint)
  : option complaint :=
  match bound with
  | Some b => if bad b then Some (why b) else None
  | None => None
  end.

Definition or_else (first rest : option complaint) : option complaint :=
  match first with
  | Some c => Some c
  | None => rest
  end.

(** The bound checks in the order they are made: [minval], [maxval],
    [above], [below]. *)
Definition violates (v : Q) (minval maxval above below : option Q) : option complaint :=
  or_else (bound_check minval (fun m => Py.Qltb v m) BelowMinimum)
 (or_else (bound_check maxval (fun m => Py.Qltb m v) AboveMaximum)
 (or_else (bound_check above (fun a => Qle_bool v a) NotAbove)
          (bound_check below (fun b => Qle_bool b v) NotBelow))).

(** Modelled from the spec: [configfile.ConfigWrapper] is not among the
    sources.  Sections 6 and 7 give each option a default and a bound and make
    a violated bound fatal at construction: an absent option yields its
    default (or is an error when it has none), a configured one is parsed and
    checked against its bounds. *)
Definition get_wrapper {A} (parser : entry -> option A) (to_float : A -> Q)
    (config : gmap string entry) (opt : string) (default : option A)
    (minval maxval above below : option Q) : outcome A :=
  match config !! opt with
  | None =>
      match default with
      | Some d => Return d
      | None => Raise (ConfigError opt MustBeSpecified)
      end
  | Some e =>
      match parser e with
      | None => Raise (ConfigError opt UnableToParse)
      | Some v =>
          match violates (to_float v) minval maxval above below with
          | Some why => Raise (ConfigError opt why)
          | None => Return v
          end
      end
  end.

Definition get (config : gmap string entry) (opt : string) : outcome entry :=
  get_wrapper Some (fun _ => 0) config opt None None None None None.

Definition getfloat (config : gmap string entry) (opt : string) (default : Q)
    (minval maxval above below : option Q) : outcome Q :=
  get_wrapper parse_float (fun v => v) config opt (Some default)
    minval maxval above below.

Definition getint (config : gmap string entry) (opt : string) (default : Z)
    (minval maxval : option Q) : outcome Z :=
  get_wrapper parse_int inject_Z config opt (Some default)
    minval maxval None None.

End Config.

(** ** simple_pid.PID *)

Module PID.

(** Modelled from the spec: the controller state of section 3 (gains,
    setpoint, output limits, integral accumulator, previous error and
    previous sample time); the [simple_pid] package is not among the
    sources. *)
Record t := mk {
  Kp : Q;
  Ki : Q;
  Kd : Q;
  setpoint : Q;
  output_limits : Q * Q;
  integral : Q;
  previous_error : option Q;
  previous_time : option Q
}.

(** Modelled from the spec: the clamp of section 4.2 onto [low, high]. *)
Definition clamp (value : Q) (limits : Q * Q) : Q :=
  let (lower, upper) := limits in
  if Py.Qltb upper value then upper
  else if Py.Qltb value lower then lower
  else value.

(** Modelled from the spec: the [simple_pid] package is not among the
    sources.  Section 4.2: the constructor stores gains, setpoint and limits
    with an empty memory. *)
Definition new (Kp Ki Kd setpoint : Q) (output_limits : Q * Q) : t :=
  mk Kp Ki Kd setpoint output_limits 0 None None.

(** Modelled from the spec: [PID.reset] of the [simple_pid] package, which is
    not among the sources.  Section 4.2: it clears the integral and the
    previous-error/time memory and leaves gains, setpoint and limits alone. *)
Definition reset (pid : t) : t :=
  mk (Kp pid) (Ki pid) (Kd pid) (setpoint pid) (output_limits pid) 0 None None.

(** Modelled from the spec: the sample interval of section 4.2, none on a
    cold start; a step back or a repeated timestamp counts as a cold start. *)
Definition interval (pid : t) (now : Q) : option Q :=
  match previous_time pid with
  | Some t0 => if Py.Qltb 0 (now - t0) then Some (now - t0) else None
  | None => None
  end.

(** Modelled from the spec: [PID.__call__] of the [simple_pid] package, which
    is not among the sources.  Section 4.2: error is setpoint minus
    measurement; integral and derivative contribute nothing without a positive
    interval; the raw output [Kp*error + Ki*integral + Kd*derivative] is
    clamped to the limits; when it was clamped the accumulator is frozen;
    the error and the time are remembered. *)
Definition call (pid : t) (measurement now : Q) : Q * t :=
  let error := setpoint pid - measurement in
  let dt := interval pid now in
  let integral' :=
    match dt with
    | Some d => integral pid + error * d
    | None => integral pid
    end in
  let derivative :=
    match dt, previous_error pid with
    | Some d, Some e0 => (error - e0) / d
    | _, _ => 0
    end in
  let raw := Kp pid * error + Ki pid * integral' + Kd pid * derivative in
  let output := clamp raw (output_limits pid) in
  let kept := if Qeq_bool output raw then integral' else integral pid in
  (output,
   mk (Kp pid) (Ki pid) (Kd pid) (setpoint pid) (output_limits pid)
      kept (Some error) (Some now)).

End PID.

Arguments PID.call : simpl never.
Arguments Py.round : simpl never.

(** ** Collaborators: host, move, PWM input *)

(** A piece of an f-string: literal text, a formatted float, or the
    formatted [math.sqrt] of a float. *)
Inductive piece :=
| Lit (s : string)
| Num (q : Q)
| Root (q : Q).

(** Calls made on the printer, on [gcode], on a [gcmd] and on [logging],
    in the order they are made. *)
Inductive event :=
| RegisterEventHandler (name handler : string)
| RegisterCommand (cmd handler desc : string)
| LoggingInfo (msg : list piece)
| GcodeRespondInfo (msg : list piece)
| GcmdRespondInfo (msg : list piece).

(** What the printer provides: the reactor's monotonic clock, the duty cycle
    most recently published by the signal-capture path, and the journal of
    the calls received. *)
Record Host := mkHost {
  monotonic : Q;
  published_duty_cycle : Q;
  journal : list event
}.

Definition record_event (e : event) (h : Host) : Host :=
  mkHost (monotonic h) (published_duty_cycle h) (journal h ++ [e]).

Module Move.

Record t := mk {
  max_cruise_v2 : Q;
  set_speed_calls : list (Q * Q)
}.

(** Modelled from the spec: [Move.set_speed] ([toolhead.py]) is not among the
    sources.  Sections 3 and 6: it overrides the segment's velocity and
    acceleration ceiling.  The velocity ceiling is the square root of
    [max_cruise_v2], so [max_cruise_v2] becomes the square of the given
    speed; the arguments of each call, the acceleration ceiling among them,
    are kept on the move. *)
Definition set_speed (move : t) (speed accel : Q) : t :=
  mk (speed * speed) (set_speed_calls move ++ [(speed, accel)]).

End Move.

Module PWMIn.

Record t := mk {
  pin : Config.entry;
  report_interval : Q;
  pwm_frequency : Q;
  additional_timeout_ticks : Z
}.

(** Modelled from the spec: [pwm_in.PWMIn] is not among the sources.
    Section 4.1: [get_duty_cycle] returns the most recently published
    estimate, which stays at its last value when no edges arrive. *)
Definition get_duty_cycle (counter : t) (h : Host) : Q := published_duty_cycle h.

End PWMIn.

(** ** class PowerCorePWMReader *)

Module PowerCorePWMReader.

Record t := mk { pwm_counter : PWMIn.t }.

Definition init (config : gmap string Config.entry) : M Host t :=
  pin ← lift (Config.get config "alrt_pin");
  pwm_frequency ← lift (Config.getfloat config "alrt_pwm_frequency" 100
                          None None (Some 0) None);
  report_interval ← lift (Config.getfloat config "alrt_report_interval" 0.1
                            None None (Some 0.1) None);
  additional_timeout_ticks ← lift (Config.getint config "additional_timeout_ticks" 0
                                     (Some 0) None);
  mret (mk (PWMIn.mk pin report_interval pwm_frequency additional_timeout_ticks)).

Definition get_current_duty_cycle (self : t) (h : Host) : Q :=
  Py.round (PWMIn.get_duty_cycle (pwm_counter self) h) 3.

End PowerCorePWMReader.

(** ** class PowerCore *)

Module PowerCore.

(** The governor's own fields.  [printer], [reactor], [gcode] and [toolhead]
    are handles on the host; what is done through them is recorded in
    [Host]. *)
Record t := mk {
  pwm_reader : PowerCorePWMReader.t;
  target_duty_cycle : Q;
  min_feedrate : Q;
  max_feedrate : Q;
  adjustment_accel : Q;
  scaling_enabled : bool;
  pid_controller : PID.t
}.

Definition set_scaling_enabled (b : bool) (self : t) : t :=
  mk (pwm_reader self) (target_duty_cycle self) (min_feedrate self)
     (max_feedrate self) (adjustment_accel self) b (pid_controller self).

Definition set_pid_controller (pid : PID.t) (self : t) : t :=
  mk (pwm_reader self) (target_duty_cycle self) (min_feedrate self)
     (max_feedrate self) (adjustment_accel self) (scaling_enabled self) pid.

Definition register_event_handler (name handler : string) : M Host unit :=
  modify (record_event (RegisterEventHandler name handler)).

Definition register_command (cmd handler desc : string) : M Host unit :=
  modify (record_event (RegisterCommand cmd handler desc)).

Definition init (config : gmap string Config.entry) : M Host t :=
  reader ← PowerCorePWMReader.init config;
  register_event_handler "klippy:connect" "_handle_connect";;
  register_command "GET_DUTY_CYCLE" "cmd_get_duty_cycle"
                   "Get the current duty cycle";;
  register_command "ENABLE_POWERCORE_FEED_SCALING" "cmd_enable_scaling"
                   "Enable scaling";;
  register_command "DISABLE_POWERCORE_FEED_SCALING" "cmd_disable_scaling"
                   "Disable scaling";;
  target_duty_cycle ← lift (Config.getfloat config "target_duty_cycle" 0.75
                              (Some 0) (Some 1) None None);
  min_feedrate ← lift (Config.getfloat config "min_feedrate" 0.1
                         (Some 0) None None None);
  max_feedrate ← lift (Config.getfloat config "max_feedrate" 64
                         (Some 0) None None None);
  adjustment_accel ← lift (Config.getfloat config "powercore_adjustment_accel" 500
                             None None (Some 0) None);
  kp ← lift (Config.getfloat config "kp" 1 None None None None);
  ki ← lift (Config.getfloat config "ki" 0 None None None None);
  kd ← lift (Config.getfloat config "kd" 0 None None None None);
  mret (mk reader target_duty_cycle min_feedrate max_feedrate adjustment_accel
           true (PID.new kp ki kd target_duty_cycle (0, 1))).

(** The objects a method call can reach: the governor itself, the move it is
    handed, and the host. *)
Record World := mkWorld {
  this : t;
  move : Move.t;
  host : Host
}.

Definition on_this (f : t -> t) (w : World) : World :=
  mkWorld (f (this w)) (move w) (host w).

Definition on_move (f : Move.t -> Move.t) (w : World) : World :=
  mkWorld (this w) (f (move w)) (host w).

Definition on_host (f : Host -> Host) (w : World) : World :=
  mkWorld (this w) (move w) (f (host w)).

Definition logging_info (msg : list piece) : M World unit :=
  modify (on_host (record_event (LoggingInfo msg))).

Definition gcode_respond_info (msg : list piece) : M World unit :=
  modify (on_host (record_event (GcodeRespondInfo msg))).

Definition gcmd_respond_info (msg : list piece) : M World unit :=
  modify (on_host (record_event (GcmdRespondInfo msg))).

(** [math.sqrt] raises [ValueError] on a negative argument. *)
Definition math_sqrt (x : Q) : M World piece :=
  if Py.Qltb x 0 then raise (ValueError "math domain error") else mret (Root x).

(** [self.pid_controller(input_)]: the controller reads the reactor's clock
    through [time_fn] and updates its own memory. *)
Definition pid_controller_call (input_ : Q) : M World Q :=
  fun w =>
    let (output, pid) :=
      PID.call (pid_controller (this w)) input_ (monotonic (host w)) in
    (Return output, on_this (set_pid_controller pid) w).

Definition move_set_speed (speed accel : Q) : M World unit :=
  modify (on_move (fun m => Move.set_speed m speed accel)).

Definition get_current_duty_cycle : M World Q :=
  gets (fun w => PowerCorePWMReader.get_current_duty_cycle
                   (pwm_reader (this w)) (host w)).

Definition cmd_get_duty_cycle : M World unit :=
  duty_cycle ← get_current_duty_cycle;
  gcmd_respond_info [Lit "duty_cycle: "; Num duty_cycle].

Definition enable_scaling (self : t) : t :=
  set_scaling_enabled true
    (set_pid_controller (PID.reset (pid_controller self)) self).

Definition disable_scaling (self : t) : t :=
  set_scaling_enabled false self.

Definition cmd_enable_scaling : M World unit :=
  modify (on_this enable_scaling);;
  gcmd_respond_info [Lit "Enabled powercore move scaling"].

Definition cmd_disable_scaling : M World unit :=
  modify (on_this disable_scaling);;
  gcmd_respond_info [Lit "Disabled powercore move scaling"].

Definition scale_move : M World unit :=
  logging_info [Lit "scale_move"];;
  current_duty_cycle ← get_current_duty_cycle;
  output ← pid_controller_call current_duty_cycle;
  self ← gets this;
  let feedrate :=
    min_feedrate self + output * (max_feedrate self - min_feedrate self) in
  max_cruise_v2 ← gets (fun w => Move.max_cruise_v2 (move w));
  orig ← math_sqrt max_cruise_v2;
  logging_info [Lit "orig move feedrate: "; orig];;
  logging_info [Lit "new move feedrate: "; Num feedrate];;
  logging_info [Lit "current duty cycle: "; Num current_duty_cycle];;
  logging_info [Lit "pid output: "; Num output];;
  move_set_speed (feedrate * 60) (adjustment_accel self);;
  gcode_respond_info
    [Lit "Current duty cycle: "; Num current_duty_cycle;
     Lit ", output: "; Num output; Lit ", feedrate: "; Num feedrate].

Definition check_move : M World unit :=
  scaling_enabled ← gets (fun w => scaling_enabled (this w));
  if negb scaling_enabled then mret tt else scale_move.

End PowerCore.

(** ** What a call of [scale_move] leaves behind

    The quantities [scale_move] computes and the world it returns when
    nothing raises, written out once for the statements below. *)

Section Observations.

Import PowerCore.

Definition measurement_of (w : World) : Q :=
  Py.round (published_duty_cycle (host w)) 3.

Definition output_of (w : World) : Q :=
  fst (PID.call (pid_controller (this w)) (measurement_of w) (monotonic (host w))).

Definition feedrate_of (w : World) : Q :=
  min_feedrate (this w)
  + output_of w * (max_feedrate (this w) - min_feedrate (this w)).

(** The feed rate [scale_move] computes, as a function of the controller
    output. *)
Definition feedrate_at (self : t) (output : Q) : Q :=
  min_feedrate self + output * (max_feedrate self - min_feedrate self).

(** The same expression on binary64 numbers, as Python evaluates it. *)
Definition feedrate_binary64 (min_feedrate max_feedrate output : float) : float :=
  (min_feedrate + output * (max_feedrate - min_feedrate))%float.

Definition journal_of_scale_move (w : World) : list event :=
  [LoggingInfo [Lit "scale_move"];
   LoggingInfo [Lit "orig move feedrate: "; Root (Move.max_cruise_v2 (move w))];
   LoggingInfo [Lit "new move feedrate: "; Num (feedrate_of w)];
   LoggingInfo [Lit "current duty cycle: "; Num (measurement_of w)];
   LoggingInfo [Lit "pid output: "; Num (output_of w)];
   GcodeRespondInfo
     [Lit "Current duty cycle: "; Num (measurement_of w);
      Lit ", output: "; Num (output_of w);
      Lit ", feedrate: "; Num (feedrate_of w)]].

Definition after_scale_move (w : World) : World :=
  mkWorld
    (set_pid_controller
       (snd (PID.call (pid_controller (this w)) (measurement_of w)
                      (monotonic (host w))))
       (this w))
    (Move.set_speed (move w) (feedrate_of w * 60) (adjustment_accel (this w)))
    (mkHost (monotonic (host w)) (published_duty_cycle (host w))
            (journal (host w) ++ journal_of_scale_move w)).

(** The world [scale_move] leaves when [math.sqrt] raises: the controller has
    already been called and only the first line was logged. *)
Definition interrupted_scale_move (w : World) : World :=
  mkWorld
    (set_pid_controller
       (snd (PID.call (pid_controller (this w)) (measurement_of w)
                      (monotonic (host w))))
       (this w))
    (move w)
    (mkHost (monotonic (host w)) (published_duty_cycle (host w))
            (journal (host w) ++ [LoggingInfo [Lit "scale_move"]])).

(** The host once [init] has registered its handler and its commands. *)
Definition registered (h : Host) : Host :=
  mkHost (monotonic h) (published_duty_cycle h)
    (journal h ++
     [RegisterEventHandler "klippy:connect" "_handle_connect";
      RegisterCommand "GET_DUTY_CYCLE" "cmd_get_duty_cycle"
                      "Get the current duty cycle";
      RegisterCommand "ENABLE_POWERCORE_FEED_SCALING" "cmd_enable_scaling"
                      "Enable scaling";
      RegisterCommand "DISABLE_POWERCORE_FEED_SCALING" "cmd_disable_scaling"
                      "Disable scaling"]).

End Observations.

(** ** What "rounded to [digits] decimal places" means

    The reading of the specification: the result is a decimal number with
    [digits] places and no such number is closer to the value. *)

(** The same reading for three places with the thousandths written out:
    the result is a whole number of thousandths and no whole number of
    thousandths is closer to the value. *)
Definition spec_nearest_thousandth (x y : Q) : Prop :=
  (exists k : Z, y == inject_Z k / 1000) /\
  (forall m : Z, Qabs (y - x) <= Qabs (inject_Z m / 1000 - x)).

Definition spec_rounded_to (digits : Z) (x y : Q) : Prop :=
  (exists k : Z, y == inject_Z k / Py.pow10 digits) /\
  (forall m : Z, Qabs (y - x) <= Qabs (inject_Z m / Py.pow10 digits - x)).

(** ** Concrete configurations and worlds *)

Module Scenario.

Import PowerCore.

Definition default_config : gmap string Config.entry :=
  {[ "alrt_pin" := Config.EntryText "PA1" ]}.

(** A configuration whose maximum feed rate is below its minimum. *)
Definition inverted_config : gmap string Config.entry :=
  <[ "min_feedrate" := Config.EntryFloat 10 ]>
    (<[ "max_feedrate" := Config.EntryFloat 5 ]> default_config).

Definition reader : PowerCorePWMReader.t :=
  PowerCorePWMReader.mk (PWMIn.mk (Config.EntryText "PA1") 0.1 100 0).

(** The governor [init] builds from [default_config]. *)
Definition default_core : t :=
  mk reader 0.75 0.1 64 500 true (PID.new 1 0 0 0.75 (0, 1)).

(** The governor [init] builds from [inverted_config]. *)
Definition inverted_core : t :=
  mk reader 0.75 10 5 500 true (PID.new 1 0 0 0.75 (0, 1)).

(** A governor whose controller has accumulated history. *)
Definition used_core : t :=
  mk reader 0.75 0.1 64 500 true
     (PID.mk 1 2 0 0.75 (0, 1) 0.3 (Some 0.25) (Some 7)).

Definition boot : Host := mkHost 0 0 [].

Definition a_move : Move.t := Move.mk 100 [].

(** A world with a quiet journal, clock [now] and published duty cycle [d]. *)
Definition world (core : t) (now d : Q) : World :=
  mkWorld core a_move (mkHost now d []).

(** Duty cycle 0.25 against the default target 0.75: error 0.5. *)
Definition half_error_world : World := world default_core 0 0.25.

(** Duty cycle on target: error 0. *)
Definition zero_error_world : World := world default_core 0 0.75.

Definition inverted_world : World := world inverted_core 0 0.25.

Definition disabled_world : World :=
  world (disable_scaling default_core) 0 0.25.

(** A published duty cycle with more than three decimals. *)
Definition fine_grained_world : World := world default_core 0 0.7504.

End Scenario.

(** ** The entry point and the calls a host makes *)

Definition load_config (config : gmap string Config.entry) : M Host PowerCore.t :=
  PowerCore.init config.

Module Session.

Import PowerCore.

(** What reaches the governor once it is loaded: the toolhead hands it a
    move, a registered command is dispatched, or the host moves on (the
    reactor's clock advances and the capture path publishes a duty cycle). *)
Inductive call :=
| CheckMove (m : Move.t)
| GetDutyCycle
| EnableScaling
| DisableScaling
| Publish (now duty_cycle : Q).

Definition hand_over (m : Move.t) : M World unit :=
  modify (on_move (fun _ => m)).

Definition publish (now duty_cycle : Q) : M World unit :=
  modify (on_host (fun h => mkHost now duty_cycle (journal h))).

Definition perform (c : call) : M World unit :=
  match c with
  | CheckMove m => hand_over m;; check_move
  | GetDutyCycle => cmd_get_duty_cycle
  | EnableScaling => cmd_enable_scaling
  | DisableScaling => cmd_disable_scaling
  | Publish now duty_cycle => publish now duty_cycle
  end.

Definition is_check_move (c : call) : bool :=
  match c with
  | CheckMove _ => true
  | _ => false
  end.

(** The calls in order, stopping at the first exception; the result lists
    the moves as [check_move] left them. *)
Fixpoint session (calls : list call) : M World (list Move.t) :=
  match calls with
  | [] => mret []
  | c :: rest =>
      perform c;;
      m ← gets move;
      ms ← session rest;
      mret (if is_check_move c then m :: ms else ms)
  end.

(** The moves of a session as they were handed in. *)
Fixpoint handed_in (calls : list call) : list Move.t :=
  match calls with
  | [] => []
  | CheckMove m :: rest => m :: handed_in rest
  | _ :: rest => handed_in rest
  end.

(** The flag the last switch command of a session asks for. *)
Fixpoint last_switch (calls : list call) (flag : bool) : bool :=
  match calls with
  | [] => flag
  | EnableScaling :: rest => last_switch rest true
  | DisableScaling :: rest => last_switch rest false
  | _ :: rest => last_switch rest flag
  end.

Definition is_enable (c : call) : bool :=
  match c with
  | EnableScaling => true
  | _ => false
  end.

(** Two governors with the same configuration and the same controller
    parameters; the flag and the controller's memory may differ. *)
Definition same_setup (a b : t) : Prop :=
  pwm_reader a = pwm_reader b /\
  target_duty_cycle a = target_duty_cycle b /\
  min_feedrate a = min_feedrate b /\
  max_feedrate a = max_feedrate b /\
  adjustment_accel a = adjustment_accel b /\
  PID.Kp (pid_controller a) = PID.Kp (pid_controller b) /\
  PID.Ki (pid_controller a) = PID.Ki (pid_controller b) /\
  PID.Kd (pid_controller a) = PID.Kd (pid_controller b) /\
  PID.setpoint (pid_controller a) = PID.setpoint (pid_controller b) /\
  PID.output_limits (pid_controller a) = PID.output_limits (pid_controller b).

(** What [check_move] may have done to a move: it is the move that was
    handed in, or it has received one more [set_speed] call, with the
    acceleration [accel]. *)
Definition at_most_one_set_speed (accel : Q) (before after : Move.t) : Prop :=
  after = before \/
  exists speed,
    Move.set_speed_calls after
    = Move.set_speed_calls before ++ [(speed, accel)].

(** A governor with history, disabled, and a session that leaves it so. *)
Definition idle_world : World :=
  mkWorld (disable_scaling Scenario.used_core) Scenario.a_move
          (mkHost 8 0.5 []).

Definition idle_calls : list call :=
  [CheckMove (Move.mk (-4) []); GetDutyCycle; Publish 9 0.2;
   CheckMove (Move.mk 25 [(3, 7)]); DisableScaling].

Definition busy_calls : list call :=
  [CheckMove (Move.mk 25 []); DisableScaling; CheckMove (Move.mk 36 []);
   Publish 3 0.9; EnableScaling; CheckMove (Move.mk 49 [(3, 7)])].

(** A move whose squared cruise velocity is negative. *)
Definition odd_world : World :=
  mkWorld Scenario.default_core (Move.mk (-4) [(3, 7)]) (mkHost 2 0.25 []).

End Session.

(** * Properties *)

Local Ltac run_step :=
  unfold run, mbind, mret, M_bind, M_ret, gets, modify, lift, raise; simpl.

Local Ltac world_simpl :=
  cbn [PowerCore.this PowerCore.move PowerCore.host PowerCore.on_this
       PowerCore.on_move PowerCore.on_host PowerCore.set_pid_controller
       PowerCore.set_scaling_enabled PowerCore.pwm_reader
       PowerCore.target_duty_cycle PowerCore.min_feedrate
       PowerCore.max_feedrate PowerCore.adjustment_accel
       PowerCore.scaling_enabled PowerCore.pid_controller
       record_event monotonic published_duty_cycle journal fst snd].

(** ** Arithmetic of [round] *)

Lemma Qltb_lt (x y : Q) : Py.Qltb x y = true <-> x < y.
Proof.
  unfold Py.Qltb. rewrite negb_true_iff.
  destruct (Qle_bool y x) eqn:E.
  - apply Qle_bool_iff in E. split; [discriminate | lra].
  - split; [intros _ | reflexivity].
    destruct (Qlt_le_dec x y) as [H | H]; [exact H |].
    apply Qle_bool_iff in H. congruence.
Qed.

Lemma Qltb_ge (x y : Q) : Py.Qltb x y = false <-> y <= x.
Proof.
  unfold Py.Qltb. rewrite negb_false_iff. apply Qle_bool_iff.
Qed.

Example round_down : Py.round (7504 # 10000) 3 == 75 # 100.
Proof. reflexivity. Qed.

Example round_tie_even : Py.round (5 # 10000) 3 == 0.
Proof. reflexivity. Qed.

Example round_tie_up : Py.round (15 # 10000) 3 == 2 # 1000.
Proof. reflexivity. Qed.


Lemma Qabs_cases (t : Q) : (0 <= t /\ Qabs t == t) \/ (t <= 0 /\ Qabs t == - t).
Proof.
  destruct (Qlt_le_dec t 0) as [H | H].
  - right. split; [lra |]. apply Qabs_neg. lra.
  - left. split; [exact H |]. apply Qabs_pos. exact H.
Qed.

Local Ltac split_abs :=
  repeat match goal with
  | |- context [Qabs ?t] =>
      let H := fresh "Habs" in
      let E := fresh "Eabs" in
      destruct (Qabs_cases t) as [[H E] | [H E]]; rewrite E; clear E
  end.

Lemma floor_bracket (x : Q) :
  inject_Z (Qfloor x) <= x /\ x < inject_Z (Qfloor x) + 1.
Proof.
  split; [apply Qfloor_le |].
  pose proof (Qlt_floor x) as H. rewrite inject_Z_plus in H. exact H.
Qed.

Lemma integer_away_from_floor (x : Q) (m : Z) :
  inject_Z m <= inject_Z (Qfloor x) \/ inject_Z (Qfloor x) + 1 <= inject_Z m.
Proof.
  destruct (Z_le_gt_dec m (Qfloor x)) as [H | H].
  - left. rewrite <- Zle_Qle. exact H.
  - right. assert (Qfloor x + 1 <= m)%Z as H' by lia.
    rewrite Zle_Qle, inject_Z_plus in H'. exact H'.
Qed.

Lemma round_half_even_cases (x : Q) :
  let f := inject_Z (Qfloor x) in
  let r := inject_Z (Py.round_half_even x) in
  (r == f /\ x - f <= 1 # 2) \/ (r == f + 1 /\ 1 # 2 <= x - f).
Proof.
  unfold Py.round_half_even. cbv zeta.
  destruct (Qcompare_spec (x - inject_Z (Qfloor x)) (1 # 2)) as [E | L | G].
  - destruct (Z.even (Qfloor x)).
    + left. split; [reflexivity | lra].
    + right. split; [rewrite inject_Z_plus; reflexivity | lra].
  - left. split; [reflexivity | lra].
  - right. split; [rewrite inject_Z_plus; reflexivity | lra].
Qed.

Lemma round_half_even_nearest (x : Q) (m : Z) :
  Qabs (inject_Z (Py.round_half_even x) - x) <= Qabs (inject_Z m - x).
Proof.
  pose proof (floor_bracket x) as [Hlo Hhi].
  pose proof (integer_away_from_floor x m) as Hm.
  pose proof (round_half_even_cases x) as Hr. cbv zeta in Hr.
  split_abs; lra.
Qed.

Lemma round_half_even_error (x : Q) :
  Qabs (inject_Z (Py.round_half_even x) - x) <= 1 # 2.
Proof.
  pose proof (floor_bracket x) as [Hlo Hhi].
  pose proof (round_half_even_cases x) as Hr. cbv zeta in Hr.
  split_abs; lra.
Qed.

Lemma pow10_pos (n : Z) : (0 <= n)%Z -> 0 < Py.pow10 n.
Proof.
  intros Hn. unfold Py.pow10.
  change 0 with (inject_Z 0). rewrite <- Zlt_Qlt.
  apply Z.pow_pos_nonneg; lia.
Qed.

Lemma Qabs_scale_down (p a : Q) : 0 < p -> Qabs (a / p) == Qabs a / p.
Proof.
  intros Hp. unfold Qdiv. rewrite Qabs_Qmult.
  rewrite (Qabs_pos (/ p)); [reflexivity |].
  apply Qlt_le_weak, Qinv_lt_0_compat, Hp.
Qed.

Lemma shift_decimal (p k x : Q) : 0 < p -> k / p - x == (k - x * p) / p.
Proof. intros Hp. field. lra. Qed.

Lemma round_unfold (x : Q) (n : Z) :
  (0 <= n)%Z ->
  Py.round x n = inject_Z (Py.round_half_even (x * Py.pow10 n)) / Py.pow10 n.
Proof.
  intros Hn. unfold Py.round.
  destruct (0 <=? n)%Z eqn:E; [reflexivity |].
  apply Z.leb_gt in E. lia.
Qed.

(** [round] returns a nearest decimal with [n] places. *)
Lemma round_is_rounded (x : Q) (n : Z) :
  (0 <= n)%Z -> spec_rounded_to n x (Py.round x n).
Proof.
  intros Hn. pose proof (pow10_pos n Hn) as Hp.
  rewrite (round_unfold x n Hn). split.
  - eexists. reflexivity.
  - intros m. rewrite !shift_decimal by exact Hp.
    rewrite !Qabs_scale_down by exact Hp.
    apply Qmult_le_compat_r.
    + apply round_half_even_nearest.
    + apply Qlt_le_weak, Qinv_lt_0_compat, Hp.
Qed.

(** Rounding to three places moves a value by at most 0.0005. *)
Lemma round3_error (x : Q) : Qabs (Py.round x 3 - x) <= 0.0005.
Proof.
  rewrite (round_unfold x 3) by lia.
  assert (0 < Py.pow10 3) as Hp by (apply pow10_pos; lia).
  rewrite shift_decimal by exact Hp. rewrite Qabs_scale_down by exact Hp.
  pose proof (round_half_even_error (x * Py.pow10 3)) as H.
  change (Py.pow10 3) with (inject_Z 1000) in *.
  apply Qle_shift_div_r; [reflexivity |].
  eapply Qle_trans; [exact H |]. discriminate.
Qed.

(** ** The controller *)

Lemma clamp_within (value lower upper : Q) :
  lower <= upper ->
  lower <= PID.clamp value (lower, upper) <= upper.
Proof.
  intros Hlu. unfold PID.clamp.
  destruct (Py.Qltb upper value) eqn:Eu.
  - lra.
  - apply Qltb_ge in Eu.
    destruct (Py.Qltb value lower) eqn:El.
    + lra.
    + apply Qltb_ge in El. lra.
Qed.

Lemma clamp_inside (value lower upper : Q) :
  lower <= value <= upper -> PID.clamp value (lower, upper) = value.
Proof.
  intros [Hl Hu]. unfold PID.clamp.
  destruct (Py.Qltb upper value) eqn:Eu.
  - apply Qltb_lt in Eu. lra.
  - destruct (Py.Qltb value lower) eqn:El; [| reflexivity].
    apply Qltb_lt in El. lra.
Qed.

Lemma call_output_within (pid : PID.t) (measurement now lower upper : Q) :
  PID.output_limits pid = (lower, upper) ->
  lower <= upper ->
  lower <= fst (PID.call pid measurement now) <= upper.
Proof.
  intros Hlim Hlu. unfold PID.call. cbv zeta. simpl fst.
  rewrite Hlim. apply clamp_within, Hlu.
Qed.

Lemma call_keeps_parameters (pid : PID.t) (measurement now : Q) :
  let pid' := snd (PID.call pid measurement now) in
  PID.Kp pid' = PID.Kp pid /\ PID.Ki pid' = PID.Ki pid /\
  PID.Kd pid' = PID.Kd pid /\ PID.setpoint pid' = PID.setpoint pid /\
  PID.output_limits pid' = PID.output_limits pid.
Proof. cbv zeta. unfold PID.call. simpl. repeat split. Qed.

Lemma call_remembers (pid : PID.t) (measurement now : Q) :
  let pid' := snd (PID.call pid measurement now) in
  PID.previous_error pid' = Some (PID.setpoint pid - measurement) /\
  PID.previous_time pid' = Some now.
Proof. cbv zeta. unfold PID.call. simpl. split; reflexivity. Qed.

(** With no integral and derivative gain the output is the clamped
    proportional term, whatever the controller remembers. *)
Lemma call_proportional_only (pid : PID.t) (measurement now : Q) :
  PID.Ki pid == 0 -> PID.Kd pid == 0 ->
  PID.output_limits pid = (0, 1) ->
  0 <= PID.Kp pid * (PID.setpoint pid - measurement) <= 1 ->
  fst (PID.call pid measurement now)
  == PID.Kp pid * (PID.setpoint pid - measurement).
Proof.
  intros Hi Hd Hlim Hp. unfold PID.call. cbv zeta. simpl fst.
  rewrite Hlim.
  match goal with
  | |- PID.clamp ?raw _ == _ =>
      assert (raw == PID.Kp pid * (PID.setpoint pid - measurement)) as Hraw
        by (rewrite Hi, Hd; ring);
      rewrite (clamp_inside raw 0 1) by (rewrite Hraw; exact Hp);
      exact Hraw
  end.
Qed.

(** ** Running the methods *)

Section Running.

Import PowerCore.

Lemma run_scale_move (w : World) :
  0 <= Move.max_cruise_v2 (move w) ->
  run scale_move w = (Return tt, after_scale_move w).
Proof.
  intros Hv. apply Qltb_ge in Hv.
  unfold after_scale_move, journal_of_scale_move, feedrate_of, output_of,
    measurement_of.
  cbv beta iota zeta delta
    [run scale_move mbind mret M_bind M_ret gets modify lift raise
     get_current_duty_cycle pid_controller_call math_sqrt logging_info
     gcode_respond_info move_set_speed
     PowerCorePWMReader.get_current_duty_cycle PWMIn.get_duty_cycle].
  world_simpl.
  destruct (PID.call _ _ _) as [output pid].
  world_simpl. rewrite Hv. world_simpl.
  unfold on_host, on_move, on_this, record_event. world_simpl.
  rewrite <- !app_assoc. reflexivity.
Qed.

Lemma run_scale_move_raises (w : World) :
  Move.max_cruise_v2 (move w) < 0 ->
  run scale_move w
  = (Raise (ValueError "math domain error"), interrupted_scale_move w).
Proof.
  intros Hv. apply Qltb_lt in Hv.
  unfold interrupted_scale_move, measurement_of.
  cbv beta iota zeta delta
    [run scale_move mbind mret M_bind M_ret gets modify lift raise
     get_current_duty_cycle pid_controller_call math_sqrt logging_info
     gcode_respond_info move_set_speed
     PowerCorePWMReader.get_current_duty_cycle PWMIn.get_duty_cycle].
  world_simpl.
  destruct (PID.call _ _ _) as [output pid].
  world_simpl. rewrite Hv.
  unfold on_host, on_move, on_this, record_event. world_simpl.
  reflexivity.
Qed.

Lemma run_check_move_enabled (w : World) :
  scaling_enabled (this w) = true ->
  run check_move w = run scale_move w.
Proof.
  intros He. unfold check_move. run_step. rewrite He. reflexivity.
Qed.

Lemma run_check_move_disabled (w : World) :
  scaling_enabled (this w) = false ->
  run check_move w = (Return tt, w).
Proof.
  intros He. unfold check_move. run_step. rewrite He. reflexivity.
Qed.

End Running.

(** ** The monad *)

Lemma run_bind {S A B} (c : M S A) (k : A -> M S B) (s : S) :
  run (c ≫= k) s =
  match run c s with
  | (Return a, s') => run (k a) s'
  | (Raise e, s') => (Raise e, s')
  end.
Proof. reflexivity. Qed.

Lemma bind_return_inv {S A B} (c : M S A) (k : A -> M S B) (s s'' : S) (b : B) :
  run (c ≫= k) s = (Return b, s'') ->
  exists a s', run c s = (Return a, s') /\ run (k a) s' = (Return b, s'').
Proof.
  rewrite run_bind. destruct (run c s) as [[a | e] s']; [| discriminate].
  intros H. exists a, s'. split; [reflexivity | exact H].
Qed.

Lemma bind_return {S A B} (c : M S A) (k : A -> M S B) (s s' : S) (a : A) :
  run c s = (Return a, s') -> run (c ≫= k) s = run (k a) s'.
Proof. intros H. rewrite run_bind, H. reflexivity. Qed.

Lemma bind_raise {S A B} (c : M S A) (k : A -> M S B) (s s' : S) (e : exn) :
  run c s = (Raise e, s') -> run (c ≫= k) s = (Raise e, s').
Proof. intros H. rewrite run_bind, H. reflexivity. Qed.

Lemma lift_return_inv {S A} (r : outcome A) (s s' : S) (a : A) :
  run (lift r) s = (Return a, s') -> r = Return a /\ s' = s.
Proof. unfold run, lift. intros H. injection H as -> ->. split; reflexivity. Qed.

Lemma run_lift {S A} (r : outcome A) (s : S) : run (lift r) s = (r, s).
Proof. reflexivity. Qed.

(** ** Reading the configuration *)

Lemma get_wrapper_insert_ne {A} (parser : Config.entry -> option A)
    (to_float : A -> Q) (config : gmap string Config.entry) (k opt : string)
    (e : Config.entry) (default : option A) (minval maxval above below : option Q) :
  k ≠ opt ->
  Config.get_wrapper parser to_float (<[k := e]> config) opt default
    minval maxval above below
  = Config.get_wrapper parser to_float config opt default
      minval maxval above below.
Proof.
  intros Hne. unfold Config.get_wrapper. rewrite lookup_insert_ne by exact Hne.
  reflexivity.
Qed.

Lemma getfloat_insert_eq (config : gmap string Config.entry) (opt : string)
    (v default : Q) (minval maxval above below : option Q) :
  Config.getfloat (<[opt := Config.EntryFloat v]> config) opt default
    minval maxval above below
  = match Config.violates v minval maxval above below with
    | Some why => Raise (ConfigError opt why)
    | None => Return v
    end.
Proof.
  unfold Config.getfloat, Config.get_wrapper. rewrite lookup_insert_eq.
  reflexivity.
Qed.

Lemma violates_minval_only (v m : Q) :
  Config.violates v (Some m) None None None
  = if Py.Qltb v m then Some (BelowMinimum m) else None.
Proof.
  unfold Config.violates, Config.bound_check, Config.or_else.
  destruct (Py.Qltb v m); reflexivity.
Qed.

(** A configured value that [getfloat] returns satisfies each bound given. *)
Lemma getfloat_bounds (config : gmap string Config.entry) (opt : string)
    (default v : Q) (minval maxval above below : option Q) :
  Config.getfloat config opt default minval maxval above below = Return v ->
  (config !! opt = None /\ v = default) \/
  (Config.violates v minval maxval above below = None /\
   exists e, config !! opt = Some e /\ Config.parse_float e = Some v).
Proof.
  unfold Config.getfloat, Config.get_wrapper.
  destruct (config !! opt) as [e |].
  - destruct (Config.parse_float e) as [x |] eqn:Ep; [| discriminate].
    destruct (Config.violates x minval maxval above below) eqn:Ev; [discriminate |].
    intros H. injection H as <-. right. split; [exact Ev |].
    exists e. split; [reflexivity | exact Ep].
  - intros H. injection H as <-. left. split; reflexivity.
Qed.

Lemma violates_minval (v m : Q) (maxval above below : option Q) :
  Config.violates v (Some m) maxval above below = None -> m <= v.
Proof.
  unfold Config.violates, Config.bound_check, Config.or_else.
  destruct (Py.Qltb v m) eqn:E; [discriminate |].
  intros _. apply Qltb_ge, E.
Qed.

Lemma getfloat_insert_ne (config : gmap string Config.entry) (k opt : string)
    (e : Config.entry) (default : Q) (minval maxval above below : option Q) :
  k ≠ opt ->
  Config.getfloat (<[k := e]> config) opt default minval maxval above below
  = Config.getfloat config opt default minval maxval above below.
Proof. intros Hne. unfold Config.getfloat. apply get_wrapper_insert_ne, Hne. Qed.

Lemma reader_init_insert_ne (config : gmap string Config.entry) (k : string)
    (e : Config.entry) :
  k ≠ "alrt_pin" -> k ≠ "alrt_pwm_frequency" ->
  k ≠ "alrt_report_interval" -> k ≠ "additional_timeout_ticks" ->
  PowerCorePWMReader.init (<[k := e]> config) = PowerCorePWMReader.init config.
Proof.
  intros H1 H2 H3 H4.
  unfold PowerCorePWMReader.init, Config.get, Config.getfloat, Config.getint.
  rewrite !get_wrapper_insert_ne by assumption. reflexivity.
Qed.

(** ** Construction *)

Section Construction.

Import PowerCore.

Lemma run_registrations {A} (k : M Host A) (h : Host) :
  run (register_event_handler "klippy:connect" "_handle_connect";;
       register_command "GET_DUTY_CYCLE" "cmd_get_duty_cycle"
                        "Get the current duty cycle";;
       register_command "ENABLE_POWERCORE_FEED_SCALING" "cmd_enable_scaling"
                        "Enable scaling";;
       register_command "DISABLE_POWERCORE_FEED_SCALING" "cmd_disable_scaling"
                        "Disable scaling";;
       k) h
  = run k (registered h).
Proof.
  unfold registered, register_event_handler, register_command, modify, run,
    mbind, M_bind, record_event.
  cbn [monotonic published_duty_cycle journal].
  rewrite <- !app_assoc. reflexivity.
Qed.

Lemma run_lift_bind {S A B} (r : outcome A) (k : A -> M S B) (s : S) :
  run (lift r ≫= k) s =
  match r with
  | Return a => run (k a) s
  | Raise e => (Raise e, s)
  end.
Proof. rewrite run_bind, run_lift. destruct r; reflexivity. Qed.

Local Ltac open_lift H x :=
  let Hx := fresh "H" x in
  rewrite run_lift_bind in H;
  match type of H with
  | match ?r with _ => _ end = _ =>
      destruct r as [x | ?] eqn:Hx; [| discriminate H]
  end.

(** What a successful construction has read and built. *)
Lemma init_return_inv (config : gmap string Config.entry) (h h' : Host) (pc : t) :
  run (init config) h = (Return pc, h') ->
  exists reader h1 target lo hi accel kp ki kd,
    run (PowerCorePWMReader.init config) h = (Return reader, h1) /\
    Config.getfloat config "target_duty_cycle" 0.75 (Some 0) (Some 1) None None
      = Return target /\
    Config.getfloat config "min_feedrate" 0.1 (Some 0) None None None
      = Return lo /\
    Config.getfloat config "max_feedrate" 64 (Some 0) None None None
      = Return hi /\
    Config.getfloat config "powercore_adjustment_accel" 500 None None (Some 0) None
      = Return accel /\
    Config.getfloat config "kp" 1 None None None None = Return kp /\
    Config.getfloat config "ki" 0 None None None None = Return ki /\
    Config.getfloat config "kd" 0 None None None None = Return kd /\
    pc = mk reader target lo hi accel true (PID.new kp ki kd target (0, 1)) /\
    h' = registered h1.
Proof.
  intros H. unfold init in H.
  apply bind_return_inv in H as (reader & h1 & Hreader & H).
  rewrite run_registrations in H.
  open_lift H target. open_lift H lo. open_lift H hi. open_lift H accel.
  open_lift H kp. open_lift H ki. open_lift H kd.
  injection H as <- <-.
  exists reader, h1, target, lo, hi, accel, kp, ki, kd.
  repeat split; assumption.
Qed.

(** Every governor [init] returns is enabled, has a controller limited to
    [(0, 1)] with an empty memory, and non-negative feed-rate bounds. *)
Lemma init_establishes (config : gmap string Config.entry) (h h' : Host) (pc : t) :
  run (init config) h = (Return pc, h') ->
  scaling_enabled pc = true /\
  PID.output_limits (pid_controller pc) = (0, 1) /\
  PID.integral (pid_controller pc) = 0 /\
  0 <= min_feedrate pc /\ 0 <= max_feedrate pc.
Proof.
  intros H.
  apply init_return_inv in H
    as (reader & h1 & target & lo & hi & accel & kp & ki & kd
        & _ & _ & Hlo & Hhi & _ & _ & _ & _ & -> & _).
  repeat split.
  - apply getfloat_bounds in Hlo as [[_ ->] | [Hv _]].
    + discriminate.
    + apply violates_minval in Hv. exact Hv.
  - apply getfloat_bounds in Hhi as [[_ ->] | [Hv _]].
    + discriminate.
    + apply violates_minval in Hv. exact Hv.
Qed.

Local Ltac read_other Hx :=
  rewrite run_lift_bind; rewrite ?getfloat_insert_ne by done;
  rewrite Hx; cbv beta iota.

Local Ltac read_bound :=
  rewrite run_lift_bind; rewrite ?getfloat_insert_ne by done;
  rewrite getfloat_insert_eq, violates_minval_only.

Lemma default_config_accepted :
  run (init Scenario.default_config) Scenario.boot
  = (Return Scenario.default_core, registered Scenario.boot).
Proof. vm_compute. reflexivity. Qed.

Lemma inverted_config_accepted :
  run (init Scenario.inverted_config) Scenario.boot
  = (Return Scenario.inverted_core, registered Scenario.boot).
Proof. vm_compute. reflexivity. Qed.

(** C3, as the code has it: construction checks [min_feedrate >= 0] and
    [max_feedrate >= 0], each on its own.  Starting from any configuration
    that is accepted, setting the two options to [lo'] and [hi'] is refused
    exactly when one of them is negative; when both are non-negative the
    governor is built with these bounds, whichever of the two is larger. *)
Theorem C3_init_checks_each_feedrate_alone
    (config : gmap string Config.entry) (h h' : Host) (pc : t) (lo' hi' : Q) :
  run (init config) h = (Return pc, h') ->
  let config' :=
    <["min_feedrate" := Config.EntryFloat lo']>
      (<["max_feedrate" := Config.EntryFloat hi']> config) in
  (0 <= min_feedrate pc /\ 0 <= max_feedrate pc) /\
  (0 <= lo' -> 0 <= hi' ->
   run (init config') h
   = (Return (mk (pwm_reader pc) (target_duty_cycle pc) lo' hi'
                 (adjustment_accel pc) (scaling_enabled pc) (pid_controller pc)),
      h')) /\
  (lo' < 0 ->
   run (init config') h
   = (Raise (ConfigError "min_feedrate" (BelowMinimum 0)), h')) /\
  (0 <= lo' -> hi' < 0 ->
   run (init config') h
   = (Raise (ConfigError "max_feedrate" (BelowMinimum 0)), h')).
Proof.
  intros H config'.
  pose proof (init_establishes config h h' pc H) as (_ & _ & _ & Hlo0 & Hhi0).
  apply init_return_inv in H
    as (reader & h1 & target & lo & hi & accel & kp & ki & kd
        & Hreader & Htarget & _ & _ & Haccel & Hkp & Hki & Hkd & -> & ->).
  split; [split; assumption |].
  assert (forall k : PowerCorePWMReader.t -> M Host t,
            run (PowerCorePWMReader.init config' ≫= fun reader' =>
                 register_event_handler "klippy:connect" "_handle_connect";;
                 register_command "GET_DUTY_CYCLE" "cmd_get_duty_cycle"
                                  "Get the current duty cycle";;
                 register_command "ENABLE_POWERCORE_FEED_SCALING"
                                  "cmd_enable_scaling" "Enable scaling";;
                 register_command "DISABLE_POWERCORE_FEED_SCALING"
                                  "cmd_disable_scaling" "Disable scaling";;
                 k reader') h
            = run (k reader) (registered h1)) as Hstart.
  { intros k. unfold config'. rewrite !reader_init_insert_ne by done.
    rewrite (bind_return _ _ _ _ _ Hreader). apply run_registrations. }
  repeat split.
  - intros Hlo' Hhi'. apply Qltb_ge in Hlo', Hhi'.
    unfold init.
    rewrite Hstart. unfold config'.
    read_other Htarget.
    read_bound. rewrite Hlo'. cbv beta iota.
    read_bound. rewrite Hhi'. cbv beta iota.
    read_other Haccel. read_other Hkp. read_other Hki. read_other Hkd.
    reflexivity.
  - intros Hlo'. apply Qltb_lt in Hlo'.
    unfold init.
    rewrite Hstart. unfold config'.
    read_other Htarget.
    read_bound. rewrite Hlo'. reflexivity.
  - intros Hlo' Hhi'. apply Qltb_ge in Hlo'. apply Qltb_lt in Hhi'.
    unfold init.
    rewrite Hstart. unfold config'.
    read_other Htarget.
    read_bound. rewrite Hlo'. cbv beta iota.
    read_bound. rewrite Hhi'. reflexivity.
Qed.

Lemma C3_init_checks_each_feedrate_alone_witness :
  run (init Scenario.default_config) Scenario.boot
  = (Return Scenario.default_core, registered Scenario.boot) /\
  0 <= 10 /\ 0 <= 5 /\
  run (init Scenario.inverted_config) Scenario.boot
  = (Return Scenario.inverted_core, registered Scenario.boot).
Proof.
  assert (0 <= 10) as Hlo by discriminate.
  assert (0 <= 5) as Hhi by discriminate.
  split; [exact default_config_accepted |].
  split; [exact Hlo |]. split; [exact Hhi |].
  exact (proj1 (proj2 (C3_init_checks_each_feedrate_alone
                         Scenario.default_config Scenario.boot
                         (registered Scenario.boot) Scenario.default_core
                         10 5 default_config_accepted))
               Hlo Hhi).
Defined.

(** C3 fails as stated: the configuration with [min_feedrate = 10] and
    [max_feedrate = 5] is accepted, and the governor starts with its maximum
    feed rate below its minimum. *)
Lemma C3_inverted_bounds_accepted_counterexample :
  exists pc h',
    run (init Scenario.inverted_config) Scenario.boot = (Return pc, h') /\
    max_feedrate pc < min_feedrate pc.
Proof.
  exists Scenario.inverted_core, (registered Scenario.boot).
  split; [exact inverted_config_accepted | reflexivity].
Qed.

End Construction.

(** ** The feed rate handed to the move *)

Section Scaling.

Import PowerCore.

(** An enabled call that reaches the move passes [set_speed] the feed rate
    multiplied by 60, together with the configured acceleration. *)
Lemma check_move_set_speed (w : World) :
  scaling_enabled (this w) = true ->
  0 <= Move.max_cruise_v2 (move w) ->
  run check_move w = (Return tt, after_scale_move w) /\
  Move.set_speed_calls (move (after_scale_move w))
  = Move.set_speed_calls (move w)
    ++ [(feedrate_of w * 60, adjustment_accel (this w))].
Proof.
  intros He Hv. split; [| reflexivity].
  rewrite (run_check_move_enabled w He). apply run_scale_move, Hv.
Qed.

Lemma output_within_unit (w : World) :
  PID.output_limits (pid_controller (this w)) = (0, 1) ->
  0 <= output_of w <= 1.
Proof.
  intros Hlim. unfold output_of.
  apply (call_output_within _ _ _ 0 1 Hlim). discriminate.
Qed.

(** In exact arithmetic. *)
Lemma feedrate_within_band (w : World) :
  0 <= output_of w <= 1 ->
  min_feedrate (this w) <= max_feedrate (this w) ->
  min_feedrate (this w) <= feedrate_of w <= max_feedrate (this w).
Proof.
  intros [Ho0 Ho1] Hband. unfold feedrate_of.
  set (o := output_of w) in *.
  set (lo := min_feedrate (this w)) in *.
  set (hi := max_feedrate (this w)) in *.
  assert (0 <= o * (hi - lo)) as H1
    by (apply Qmult_le_0_compat; lra).
  assert (0 <= (1 - o) * (hi - lo)) as H2
    by (apply Qmult_le_0_compat; lra).
  split; lra.
Qed.

(** Multiplying by 60 agrees with dividing by 60 only at feed rate 0. *)
Lemma times_60_is_over_60_only_at_zero (feedrate : Q) :
  feedrate * 60 == feedrate / 60 <-> feedrate == 0.
Proof.
  assert (feedrate / 60 == feedrate * (1 # 60)) as E by (field; discriminate).
  rewrite E. split; intros H; lra.
Qed.

(** C1, at the input where the controller output is 0.5 under the default
    bounds: the feed rate is 32.05 mm/min and [set_speed] receives
    32.05 * 60 = 1923, not 32.05 / 60. *)
Theorem C1_set_speed_receives_feedrate_times_60 :
  output_of Scenario.half_error_world == 0.5 /\
  feedrate_of Scenario.half_error_world == 32.05 /\
  exists w' velocity,
    run check_move Scenario.half_error_world = (Return tt, w') /\
    Move.set_speed_calls (move w') = [(velocity, 500)] /\
    velocity == 1923 /\
    ~ velocity == 32.05 / 60.
Proof.
  split; [reflexivity |]. split; [reflexivity |].
  destruct (check_move_set_speed Scenario.half_error_world)
    as [Hrun Hcalls]; [reflexivity | discriminate |].
  exists (after_scale_move Scenario.half_error_world),
         (feedrate_of Scenario.half_error_world * 60).
  split; [exact Hrun |]. split; [reflexivity |].
  split; [reflexivity | discriminate].
Qed.

(** C2 fails as stated: under the accepted configuration with
    [min_feedrate = 10] and [max_feedrate = 5] an enabled call computes the
    feed rate 7.5 and hands [set_speed] a velocity whose sixty-fold is 27000;
    neither lies in the band from 10 to 5. *)
Lemma C2_inverted_band_counterexample :
  scaling_enabled (this Scenario.inverted_world) = true /\
  exists w' velocity,
    run check_move Scenario.inverted_world = (Return tt, w') /\
    Move.set_speed_calls (move w') = [(velocity, 500)] /\
    feedrate_of Scenario.inverted_world == 7.5 /\
    ~ (min_feedrate (this Scenario.inverted_world)
       <= feedrate_of Scenario.inverted_world
       <= max_feedrate (this Scenario.inverted_world)) /\
    ~ (min_feedrate (this Scenario.inverted_world)
       <= velocity * 60
       <= max_feedrate (this Scenario.inverted_world)).
Proof.
  split; [reflexivity |].
  destruct (check_move_set_speed Scenario.inverted_world)
    as [Hrun Hcalls]; [reflexivity | discriminate |].
  exists (after_scale_move Scenario.inverted_world),
         (feedrate_of Scenario.inverted_world * 60).
  split; [exact Hrun |]. split; [reflexivity |]. split; [reflexivity |].
  split; intros [_ Hhi]; vm_compute in Hhi; apply Hhi; reflexivity.
Qed.

(** In exact arithmetic the expression takes the value [min_feedrate] at
    output 0 and [max_feedrate] at output 1. *)
Lemma feedrate_at_ends_exact (self : t) :
  feedrate_at self 0 == min_feedrate self /\
  feedrate_at self 1 == max_feedrate self.
Proof. unfold feedrate_at. split; ring. Qed.

#[local] Set Warnings "-inexact-float".

(** On binary64 numbers the value at output 1 can lie above the maximum:
    with the bounds 0.3 and 0.9 it is 0.9000000000000001.  The value at
    output 0 is the minimum itself. *)
Example feedrate_binary64_above_max :
  PrimFloat.ltb 0.9 (feedrate_binary64 0.3 0.9 1) = true /\
  PrimFloat.eqb (feedrate_binary64 0.3 0.9 1) 0.9000000000000001 = true /\
  PrimFloat.eqb (feedrate_binary64 0.3 0.9 0) 0.3 = true.
Proof. vm_compute. repeat split. Qed.

#[local] Set Warnings "inexact-float".

(** C2, as the code has it: when [min_feedrate <= max_feedrate], an enabled
    call on a move with a non-negative [max_cruise_v2] returns, the
    controller output it used lies in [0, 1], and the feed rate it computed
    and reported is at least [min_feedrate], the value of the feed-rate
    expression at output 0, and at most the value of the same expression at
    output 1.  The statement does not say that this upper end is
    [max_feedrate]: it is in exact arithmetic, and it is not on binary64
    numbers. *)
Theorem C2_feedrate_between_the_ends (w : World) :
  scaling_enabled (this w) = true ->
  PID.output_limits (pid_controller (this w)) = (0, 1) ->
  min_feedrate (this w) <= max_feedrate (this w) ->
  0 <= Move.max_cruise_v2 (move w) ->
  exists w',
    run check_move w = (Return tt, w') /\
    journal (host w') = journal (host w) ++ journal_of_scale_move w /\
    0 <= output_of w <= 1 /\
    feedrate_of w = feedrate_at (this w) (output_of w) /\
    feedrate_at (this w) 0 == min_feedrate (this w) /\
    min_feedrate (this w) <= feedrate_of w /\
    feedrate_of w <= feedrate_at (this w) 1.
Proof.
  intros He Hlim Hband Hv.
  destruct (check_move_set_speed w He Hv) as [Hrun _].
  exists (after_scale_move w).
  split; [exact Hrun |]. split; [reflexivity |].
  pose proof (output_within_unit w Hlim) as Ho.
  split; [exact Ho |]. split; [reflexivity |].
  destruct (feedrate_at_ends_exact (this w)) as [E0 E1].
  split; [exact E0 |].
  destruct (feedrate_within_band w Ho Hband) as [Hlo Hhi].
  split; [exact Hlo |]. rewrite E1. exact Hhi.
Qed.

Lemma C2_feedrate_between_the_ends_witness :
  scaling_enabled (this Scenario.half_error_world) = true /\
  PID.output_limits (pid_controller (this Scenario.half_error_world)) = (0, 1) /\
  min_feedrate (this Scenario.half_error_world)
    <= max_feedrate (this Scenario.half_error_world) /\
  0 <= Move.max_cruise_v2 (move Scenario.half_error_world) /\
  exists w',
    run check_move Scenario.half_error_world = (Return tt, w') /\
    journal (host w')
    = journal (host Scenario.half_error_world)
      ++ journal_of_scale_move Scenario.half_error_world /\
    0 <= output_of Scenario.half_error_world <= 1 /\
    feedrate_of Scenario.half_error_world
    = feedrate_at (this Scenario.half_error_world)
                  (output_of Scenario.half_error_world) /\
    feedrate_at (this Scenario.half_error_world) 0
    == min_feedrate (this Scenario.half_error_world) /\
    min_feedrate (this Scenario.half_error_world)
      <= feedrate_of Scenario.half_error_world /\
    feedrate_of Scenario.half_error_world
      <= feedrate_at (this Scenario.half_error_world) 1.
Proof.
  assert (min_feedrate (this Scenario.half_error_world)
          <= max_feedrate (this Scenario.half_error_world)) as Hband
    by (vm_compute; discriminate).
  assert (0 <= Move.max_cruise_v2 (move Scenario.half_error_world)) as Hv
    by (vm_compute; discriminate).
  split; [reflexivity |]. split; [reflexivity |].
  split; [exact Hband |]. split; [exact Hv |].
  exact (C2_feedrate_between_the_ends Scenario.half_error_world
           eq_refl eq_refl Hband Hv).
Defined.

End Scaling.

(** ** The controller at zero error *)

Section ZeroError.

Import PowerCore.

(** C4 fails as stated: with the default gains and target and the duty cycle
    on target, the controller output is 0, not 0.5, and the feed rate is the
    minimum 0.1 mm/min, not 32.05. *)
Lemma C4_zero_error_counterexample :
  PID.Kp (pid_controller (this Scenario.zero_error_world)) == 1 /\
  PID.Ki (pid_controller (this Scenario.zero_error_world)) == 0 /\
  PID.Kd (pid_controller (this Scenario.zero_error_world)) == 0 /\
  PID.setpoint (pid_controller (this Scenario.zero_error_world)) == 0.75 /\
  measurement_of Scenario.zero_error_world == 0.75 /\
  min_feedrate (this Scenario.zero_error_world) == 0.1 /\
  max_feedrate (this Scenario.zero_error_world) == 64 /\
  run check_move Scenario.zero_error_world
  = (Return tt, after_scale_move Scenario.zero_error_world) /\
  ~ output_of Scenario.zero_error_world == 0.5 /\
  ~ feedrate_of Scenario.zero_error_world == 32.05.
Proof.
  repeat (split; [reflexivity |]).
  split; intros H; vm_compute in H; discriminate H.
Qed.

(** C4, as the controller of section 4.2 has it: with [Kp = 1], [Ki = 0],
    [Kd = 0] and a measurement equal to the target, the output is the
    proportional term 0 clamped into [0, 1], that is 0, so the feed rate is
    [min_feedrate]; with the bounds 0.1 and 64 it is 0.1 mm/min. *)
Theorem C4_zero_error_gives_min_feedrate (w : World) :
  scaling_enabled (this w) = true ->
  PID.output_limits (pid_controller (this w)) = (0, 1) ->
  PID.Kp (pid_controller (this w)) == 1 ->
  PID.Ki (pid_controller (this w)) == 0 ->
  PID.Kd (pid_controller (this w)) == 0 ->
  PID.setpoint (pid_controller (this w)) == 0.75 ->
  measurement_of w == 0.75 ->
  min_feedrate (this w) == 0.1 ->
  max_feedrate (this w) == 64 ->
  0 <= Move.max_cruise_v2 (move w) ->
  run check_move w = (Return tt, after_scale_move w) /\
  output_of w == 0 /\
  feedrate_of w == 0.1.
Proof.
  intros He Hlim Hp Hi Hd Hs Hm Hlo Hhi Hv.
  split; [apply check_move_set_speed; assumption |].
  assert (output_of w == 0) as Ho.
  { unfold output_of.
    rewrite call_proportional_only; try assumption.
    - rewrite Hs, Hm. ring.
    - rewrite Hs, Hm, Hp. split; discriminate. }
  split; [exact Ho |].
  unfold feedrate_of. rewrite Ho, Hlo. ring.
Qed.

Lemma C4_zero_error_gives_min_feedrate_witness :
  run check_move Scenario.zero_error_world
  = (Return tt, after_scale_move Scenario.zero_error_world) /\
  output_of Scenario.zero_error_world == 0 /\
  feedrate_of Scenario.zero_error_world == 0.1.
Proof.
  apply (C4_zero_error_gives_min_feedrate Scenario.zero_error_world);
    first [reflexivity | discriminate].
Defined.

End ZeroError.

(** ** Enabling and disabling *)

Section Switch.

Import PowerCore.

(** C5: while scaling is disabled, [check_move] returns at once and the
    whole world is as before: the move (so no [set_speed] call), the
    controller, the governor and the host's journal. *)
Theorem C5_disabled_check_move_changes_nothing (w : World) :
  scaling_enabled (this w) = false ->
  run check_move w = (Return tt, w) /\
  Move.set_speed_calls (move (snd (run check_move w)))
  = Move.set_speed_calls (move w) /\
  pid_controller (this (snd (run check_move w))) = pid_controller (this w).
Proof.
  intros Hd. rewrite (run_check_move_disabled w Hd).
  repeat split.
Qed.

Lemma C5_disabled_check_move_changes_nothing_witness :
  scaling_enabled (this Scenario.disabled_world) = false /\
  run check_move Scenario.disabled_world = (Return tt, Scenario.disabled_world).
Proof.
  split; [reflexivity |].
  exact (proj1 (C5_disabled_check_move_changes_nothing
                  Scenario.disabled_world eq_refl)).
Defined.

Lemma run_cmd_enable_scaling (w : World) :
  run cmd_enable_scaling w
  = (Return tt,
     on_host (record_event (GcmdRespondInfo [Lit "Enabled powercore move scaling"]))
             (on_this enable_scaling w)).
Proof. reflexivity. Qed.

Lemma run_cmd_disable_scaling (w : World) :
  run cmd_disable_scaling w
  = (Return tt,
     on_host (record_event (GcmdRespondInfo [Lit "Disabled powercore move scaling"]))
             (on_this disable_scaling w)).
Proof. reflexivity. Qed.

(** C6: [enable_scaling] resets the controller and sets the flag.  After it,
    whatever the governor held before (and also right after a
    [disable_scaling]), scaling is enabled, the integral accumulator is 0,
    the previous error and time are forgotten, gains, setpoint and limits
    are kept, and the controller answers its next call as a freshly built
    one would. *)
Theorem C6_enable_scaling_resets_then_enables (self : t) :
  let self' := enable_scaling self in
  scaling_enabled self' = true /\
  pid_controller self' = PID.reset (pid_controller self) /\
  PID.integral (pid_controller self') = 0 /\
  PID.previous_error (pid_controller self') = None /\
  PID.previous_time (pid_controller self') = None /\
  PID.integral (pid_controller (enable_scaling (disable_scaling self))) = 0 /\
  (PID.Kp (pid_controller self'), PID.Ki (pid_controller self'),
   PID.Kd (pid_controller self'), PID.setpoint (pid_controller self'),
   PID.output_limits (pid_controller self'))
  = (PID.Kp (pid_controller self), PID.Ki (pid_controller self),
     PID.Kd (pid_controller self), PID.setpoint (pid_controller self),
     PID.output_limits (pid_controller self)) /\
  (forall measurement now,
     PID.call (pid_controller self') measurement now
     = PID.call (PID.new (PID.Kp (pid_controller self))
                         (PID.Ki (pid_controller self))
                         (PID.Kd (pid_controller self))
                         (PID.setpoint (pid_controller self))
                         (PID.output_limits (pid_controller self)))
                measurement now) /\
  (forall w, this w = self ->
     exists w', run cmd_enable_scaling w = (Return tt, w') /\ this w' = self').
Proof.
  cbv zeta. repeat split.
  intros w <-. eexists. split; [apply run_cmd_enable_scaling | reflexivity].
Qed.

(** C7: [disable_scaling] clears the flag and nothing else: the controller
    (gains, setpoint, limits, integral accumulator, previous error and
    time) and every configuration field are as before. *)
Theorem C7_disable_scaling_only_clears_flag (self : t) :
  let self' := disable_scaling self in
  scaling_enabled self' = false /\
  pid_controller self' = pid_controller self /\
  pwm_reader self' = pwm_reader self /\
  target_duty_cycle self' = target_duty_cycle self /\
  min_feedrate self' = min_feedrate self /\
  max_feedrate self' = max_feedrate self /\
  adjustment_accel self' = adjustment_accel self /\
  (forall w, this w = self ->
     exists w', run cmd_disable_scaling w = (Return tt, w') /\
                this w' = self' /\ move w' = move w).
Proof.
  cbv zeta. repeat split.
  intros w <-. eexists. split; [apply run_cmd_disable_scaling |].
  split; reflexivity.
Qed.

(** C10: [enable_scaling] does not look at the flag.  Called while scaling
    is already enabled it still replaces the controller by its reset: the
    integral accumulator is 0 and the previous error and time are forgotten,
    and scaling stays enabled. *)
Theorem C10_enable_scaling_resets_when_already_enabled (self : t) :
  scaling_enabled self = true ->
  scaling_enabled (enable_scaling self) = true /\
  pid_controller (enable_scaling self) = PID.reset (pid_controller self) /\
  PID.integral (pid_controller (enable_scaling self)) = 0 /\
  PID.previous_error (pid_controller (enable_scaling self)) = None /\
  PID.previous_time (pid_controller (enable_scaling self)) = None.
Proof. intros _. repeat split. Qed.

Lemma C10_enable_scaling_resets_when_already_enabled_witness :
  scaling_enabled Scenario.used_core = true /\
  ~ PID.integral (pid_controller Scenario.used_core) == 0 /\
  PID.previous_error (pid_controller Scenario.used_core) = Some 0.25 /\
  scaling_enabled (enable_scaling Scenario.used_core) = true /\
  PID.integral (pid_controller (enable_scaling Scenario.used_core)) = 0 /\
  PID.previous_error (pid_controller (enable_scaling Scenario.used_core)) = None /\
  PID.previous_time (pid_controller (enable_scaling Scenario.used_core)) = None.
Proof.
  split; [reflexivity |]. split; [discriminate |]. split; [reflexivity |].
  pose proof (C10_enable_scaling_resets_when_already_enabled
                Scenario.used_core eq_refl) as (He & _ & Hi & Hpe & Hpt).
  repeat split; assumption.
Defined.

End Switch.

(** ** The duty cycle that is reported and fed back *)

Section DutyCycle.

Import PowerCore.

(** C8: [get_current_duty_cycle] returns the published estimate rounded to
    three decimal places, whatever the estimate is: a whole number of
    thousandths, none of which is closer to the estimate, so at most 0.0005
    away from it; and [cmd_get_duty_cycle] answers with exactly this
    value. *)
Theorem C8_duty_cycle_rounded_to_three_places
    (self : PowerCorePWMReader.t) (h : Host) :
  spec_rounded_to 3 (PWMIn.get_duty_cycle (PowerCorePWMReader.pwm_counter self) h)
                  (PowerCorePWMReader.get_current_duty_cycle self h) /\
  spec_nearest_thousandth
    (PWMIn.get_duty_cycle (PowerCorePWMReader.pwm_counter self) h)
    (PowerCorePWMReader.get_current_duty_cycle self h) /\
  Qabs (PowerCorePWMReader.get_current_duty_cycle self h
        - PWMIn.get_duty_cycle (PowerCorePWMReader.pwm_counter self) h)
    <= 0.0005 /\
  (forall w, pwm_reader (this w) = self -> host w = h ->
     run cmd_get_duty_cycle w
     = (Return tt,
        on_host (record_event
                   (GcmdRespondInfo
                      [Lit "duty_cycle: ";
                       Num (PowerCorePWMReader.get_current_duty_cycle self h)]))
                w)).
Proof.
  split; [| split; [| split]].
  - unfold PowerCorePWMReader.get_current_duty_cycle.
    apply round_is_rounded. lia.
  - unfold PowerCorePWMReader.get_current_duty_cycle.
    exact (round_is_rounded _ 3 ltac:(lia)).
  - apply round3_error.
  - intros w <- <-. reflexivity.
Qed.

Example duty_cycle_7504_reported_as_750 :
  PowerCorePWMReader.get_current_duty_cycle Scenario.reader
    (host Scenario.fine_grained_world) == 0.75 /\
  PowerCorePWMReader.get_current_duty_cycle Scenario.reader
    (mkHost 0 0.2506 []) == 0.251 /\
  PowerCorePWMReader.get_current_duty_cycle Scenario.reader
    (mkHost 0 0.9996 []) == 1.
Proof. repeat split. Qed.

(** C9: an enabled [check_move] feeds the controller the rounded duty
    cycle: the controller it leaves behind is the one obtained by calling
    the old controller on the three-place rounding of the published
    estimate, which is within 0.0005 of the estimate; this holds whether or
    not the call goes on to reach the move. *)
Theorem C9_controller_is_fed_the_rounded_duty_cycle (w : World) :
  scaling_enabled (this w) = true ->
  let estimate := PWMIn.get_duty_cycle
                    (PowerCorePWMReader.pwm_counter (pwm_reader (this w)))
                    (host w) in
  let measurement := PowerCorePWMReader.get_current_duty_cycle
                       (pwm_reader (this w)) (host w) in
  let w' := snd (run check_move w) in
  spec_rounded_to 3 estimate measurement /\
  Qabs (measurement - estimate) <= 0.0005 /\
  pid_controller (this w')
  = snd (PID.call (pid_controller (this w)) measurement (monotonic (host w))) /\
  PID.previous_error (pid_controller (this w'))
  = Some (PID.setpoint (pid_controller (this w)) - measurement).
Proof.
  intros He. cbv zeta.
  split; [apply round_is_rounded; lia |].
  split; [apply round3_error |].
  rewrite (run_check_move_enabled w He).
  destruct (Qlt_le_dec (Move.max_cruise_v2 (move w)) 0) as [Hneg | Hpos].
  - rewrite (run_scale_move_raises w Hneg). split; reflexivity.
  - rewrite (run_scale_move w Hpos). split; reflexivity.
Qed.

Lemma C9_controller_is_fed_the_rounded_duty_cycle_witness :
  scaling_enabled (this Scenario.fine_grained_world) = true /\
  published_duty_cycle (host Scenario.fine_grained_world) == 0.7504 /\
  PID.previous_error
    (pid_controller (this (snd (run check_move Scenario.fine_grained_world))))
  = Some (PID.setpoint (pid_controller (this Scenario.fine_grained_world))
          - Py.round 0.7504 3) /\
  Py.round 0.7504 3 == 0.75.
Proof.
  split; [reflexivity |]. split; [reflexivity |].
  split; [| reflexivity].
  exact (proj2 (proj2 (proj2
           (C9_controller_is_fed_the_rounded_duty_cycle
              Scenario.fine_grained_world eq_refl)))).
Defined.

End DutyCycle.

(** * Further properties *)

(** ** More on [round] *)

Lemma round_half_even_comp (x y : Q) :
  x == y -> Py.round_half_even x = Py.round_half_even y.
Proof.
  intros H. unfold Py.round_half_even. cbv zeta.
  rewrite (Qfloor_comp x y H).
  rewrite (Qcompare_comp (x - inject_Z (Qfloor y)) (y - inject_Z (Qfloor y))
             ltac:(rewrite H; reflexivity) (1 # 2) (1 # 2) ltac:(reflexivity)).
  reflexivity.
Qed.

Lemma round_half_even_integer (k : Z) : Py.round_half_even (inject_Z k) = k.
Proof.
  unfold Py.round_half_even. cbv zeta. rewrite Qfloor_Z.
  destruct (Qcompare_spec (inject_Z k - inject_Z k) (1 # 2)) as [E | L | G].
  - lra.
  - reflexivity.
  - lra.
Qed.

Lemma round_half_even_monotone (x y : Q) :
  x <= y -> (Py.round_half_even x <= Py.round_half_even y)%Z.
Proof.
  intros Hxy.
  destruct (Qeq_dec x y) as [E | N].
  { rewrite (round_half_even_comp x y E). lia. }
  pose proof (Qfloor_resp_le x y Hxy) as Hf.
  pose proof (floor_bracket x) as [Hxl Hxh].
  pose proof (floor_bracket y) as [Hyl Hyh].
  pose proof (round_half_even_cases x) as Hx. cbv zeta in Hx.
  pose proof (round_half_even_cases y) as Hy. cbv zeta in Hy.
  rewrite Zle_Qle.
  destruct (Z.eq_dec (Qfloor x) (Qfloor y)) as [Ef | Nf].
  - rewrite Ef in *.
    destruct Hx as [[Hx _] | [Hx Hx']], Hy as [[Hy Hy'] | [Hy _]];
      rewrite Hx, Hy; lra.
  - assert (Qfloor x + 1 <= Qfloor y)%Z as Hstep by lia.
    rewrite Zle_Qle, inject_Z_plus in Hstep. change (inject_Z 1) with 1 in Hstep.
    destruct Hx as [[Hx _] | [Hx _]], Hy as [[Hy _] | [Hy _]];
      rewrite Hx, Hy; lra.
Qed.

(** Rounding a value that already has [n] decimals returns it. *)
Lemma round_of_decimal (k n : Z) :
  (0 <= n)%Z ->
  Py.round (inject_Z k / Py.pow10 n) n = inject_Z k / Py.pow10 n.
Proof.
  intros Hn. pose proof (pow10_pos n Hn) as Hp.
  rewrite (round_unfold _ n Hn).
  rewrite (round_half_even_comp (inject_Z k / Py.pow10 n * Py.pow10 n) (inject_Z k)).
  - rewrite round_half_even_integer. reflexivity.
  - field. lra.
Qed.

Lemma round_idempotent (x : Q) (n : Z) :
  (0 <= n)%Z -> Py.round (Py.round x n) n = Py.round x n.
Proof.
  intros Hn. rewrite (round_unfold x n Hn). apply round_of_decimal, Hn.
Qed.

Lemma round_monotone (x y : Q) (n : Z) :
  (0 <= n)%Z -> x <= y -> Py.round x n <= Py.round y n.
Proof.
  intros Hn Hxy. pose proof (pow10_pos n Hn) as Hp.
  rewrite !(round_unfold _ n Hn).
  apply Qmult_le_compat_r.
  - rewrite <- Zle_Qle. apply round_half_even_monotone.
    apply Qmult_le_compat_r; [exact Hxy | lra].
  - apply Qlt_le_weak, Qinv_lt_0_compat, Hp.
Qed.

Section Reported.

Import PowerCore.

(** X1: a published duty cycle between 0 and 1 is reported as a value
    between 0 and 1: rounding never leaves the range of a duty cycle. *)
Theorem duty_cycle_stays_in_range (self : PowerCorePWMReader.t) (h : Host) :
  0 <= published_duty_cycle h <= 1 ->
  0 <= PowerCorePWMReader.get_current_duty_cycle self h <= 1.
Proof.
  intros [H0 H1].
  unfold PowerCorePWMReader.get_current_duty_cycle, PWMIn.get_duty_cycle.
  split.
  - apply (Qle_trans _ (Py.round 0 3)); [discriminate |].
    apply round_monotone; [lia | exact H0].
  - apply (Qle_trans _ (Py.round 1 3)); [| discriminate].
    apply round_monotone; [lia | exact H1].
Qed.

Lemma duty_cycle_stays_in_range_witness :
  0 <= published_duty_cycle (host Scenario.fine_grained_world) <= 1 /\
  0 <= PowerCorePWMReader.get_current_duty_cycle
         (pwm_reader (this Scenario.fine_grained_world))
         (host Scenario.fine_grained_world) <= 1.
Proof.
  assert (0 <= published_duty_cycle (host Scenario.fine_grained_world) <= 1)
    as H by (split; discriminate).
  split; [exact H |].
  exact (duty_cycle_stays_in_range _ _ H).
Defined.

(** X2: a larger published duty cycle is never reported as a smaller
    value. *)
Theorem duty_cycle_report_is_monotone (self : PowerCorePWMReader.t) (h1 h2 : Host) :
  published_duty_cycle h1 <= published_duty_cycle h2 ->
  PowerCorePWMReader.get_current_duty_cycle self h1
  <= PowerCorePWMReader.get_current_duty_cycle self h2.
Proof.
  intros H.
  unfold PowerCorePWMReader.get_current_duty_cycle, PWMIn.get_duty_cycle.
  apply round_monotone; [lia | exact H].
Qed.

Lemma duty_cycle_report_is_monotone_witness :
  published_duty_cycle (host Scenario.half_error_world)
  <= published_duty_cycle (host Scenario.fine_grained_world) /\
  PowerCorePWMReader.get_current_duty_cycle Scenario.reader
    (host Scenario.half_error_world)
  <= PowerCorePWMReader.get_current_duty_cycle Scenario.reader
       (host Scenario.fine_grained_world).
Proof.
  assert (published_duty_cycle (host Scenario.half_error_world)
          <= published_duty_cycle (host Scenario.fine_grained_world))
    as H by discriminate.
  split; [exact H |].
  exact (duty_cycle_report_is_monotone Scenario.reader _ _ H).
Defined.

(** X3: the reported duty cycle is a fixed point of the report: publishing
    the reported value gives the same report again, whatever the clock and
    the journal are. *)
Theorem duty_cycle_report_is_stable
    (self : PowerCorePWMReader.t) (h : Host) (now : Q) (j : list event) :
  PowerCorePWMReader.get_current_duty_cycle self
    (mkHost now (PowerCorePWMReader.get_current_duty_cycle self h) j)
  = PowerCorePWMReader.get_current_duty_cycle self h.
Proof.
  unfold PowerCorePWMReader.get_current_duty_cycle, PWMIn.get_duty_cycle.
  cbn [published_duty_cycle]. apply round_idempotent. lia.
Qed.

End Reported.

(** ** One call of [check_move], whatever the state *)

Section Frame.

Import PowerCore.
Import Session.

Lemma same_setup_refl (a : t) : same_setup a a.
Proof. unfold same_setup. repeat split. Qed.

Lemma same_setup_trans (a b c : t) :
  same_setup a b -> same_setup b c -> same_setup a c.
Proof.
  unfold same_setup.
  intros (? & ? & ? & ? & ? & ? & ? & ? & ? & ?) (? & ? & ? & ? & ? & ? & ? & ? & ? & ?).
  repeat split; congruence.
Qed.

Lemma run_check_move_cases (w : World) :
  run check_move w = (Return tt, w) \/
  run check_move w = (Return tt, after_scale_move w) \/
  run check_move w
  = (Raise (ValueError "math domain error"), interrupted_scale_move w).
Proof.
  destruct (scaling_enabled (this w)) eqn:He.
  - rewrite (run_check_move_enabled w He).
    destruct (Qlt_le_dec (Move.max_cruise_v2 (move w)) 0) as [Hneg | Hpos].
    + right. right. apply run_scale_move_raises, Hneg.
    + right. left. apply run_scale_move, Hpos.
  - left. apply run_check_move_disabled, He.
Qed.

(** X4: whatever the state, one [check_move] leaves the configuration, the
    flag and the controller's gains, setpoint and limits as they were, does
    not touch the clock or the published duty cycle, only appends to the
    journal, and either leaves the move as it was handed in or makes one
    [set_speed] call on it, with the configured acceleration. *)
Theorem check_move_frame (w : World) :
  let w' := snd (run check_move w) in
  same_setup (this w) (this w') /\
  scaling_enabled (this w') = scaling_enabled (this w) /\
  monotonic (host w') = monotonic (host w) /\
  published_duty_cycle (host w') = published_duty_cycle (host w) /\
  (exists added, journal (host w') = journal (host w) ++ added) /\
  at_most_one_set_speed (adjustment_accel (this w)) (move w) (move w').
Proof.
  cbv zeta.
  destruct (run_check_move_cases w) as [-> | [-> | ->]]; cbn [snd].
  - split; [apply same_setup_refl |]. repeat split; try reflexivity.
    + exists []. rewrite app_nil_r. reflexivity.
    + left. reflexivity.
  - split; [unfold same_setup; repeat split |]. repeat split; try reflexivity.
    + eexists. reflexivity.
    + right. eexists. reflexivity.
  - split; [unfold same_setup; repeat split |]. repeat split; try reflexivity.
    + eexists. reflexivity.
    + left. reflexivity.
Qed.

(** X5: an enabled [check_move] on a move whose [max_cruise_v2] is negative
    raises [ValueError] from [math.sqrt]: the move is not touched and nothing
    is reported, but the controller has already been stepped with the
    rounded duty cycle and the first line has been logged. *)
Theorem check_move_raises_on_negative_cruise (w : World) :
  scaling_enabled (this w) = true ->
  Move.max_cruise_v2 (move w) < 0 ->
  exists w',
    run check_move w = (Raise (ValueError "math domain error"), w') /\
    move w' = move w /\
    journal (host w') = journal (host w) ++ [LoggingInfo [Lit "scale_move"]] /\
    pid_controller (this w')
    = snd (PID.call (pid_controller (this w)) (measurement_of w)
                    (monotonic (host w))) /\
    PID.previous_time (pid_controller (this w')) = Some (monotonic (host w)).
Proof.
  intros He Hneg. exists (interrupted_scale_move w).
  rewrite (run_check_move_enabled w He), (run_scale_move_raises w Hneg).
  repeat split.
Qed.

Lemma check_move_raises_on_negative_cruise_witness :
  scaling_enabled (this odd_world) = true /\
  Move.max_cruise_v2 (move odd_world) < 0 /\
  exists w',
    run check_move odd_world = (Raise (ValueError "math domain error"), w') /\
    move w' = move odd_world /\
    journal (host w') = journal (host odd_world) ++ [LoggingInfo [Lit "scale_move"]] /\
    pid_controller (this w')
    = snd (PID.call (pid_controller (this odd_world)) (measurement_of odd_world)
                    (monotonic (host odd_world))) /\
    PID.previous_time (pid_controller (this w')) = Some (monotonic (host odd_world)).
Proof.
  assert (Move.max_cruise_v2 (move odd_world) < 0) as Hneg by reflexivity.
  split; [reflexivity |]. split; [exact Hneg |].
  exact (check_move_raises_on_negative_cruise odd_world eq_refl Hneg).
Defined.

End Frame.

(** ** Sessions *)

Section Sessions.

Import PowerCore.
Import Session.

Lemma run_perform_check_move (m : Move.t) (w : World) :
  run (perform (CheckMove m)) w = run check_move (on_move (fun _ => m) w).
Proof. reflexivity. Qed.

Lemma run_session_cons (c : call) (rest : list call) (w : World) :
  run (session (c :: rest)) w =
  match run (perform c) w with
  | (Return _, w1) =>
      match run (session rest) w1 with
      | (Return ms, w2) =>
          (Return (if is_check_move c then move w1 :: ms else ms), w2)
      | (Raise e, w2) => (Raise e, w2)
      end
  | (Raise e, w1) => (Raise e, w1)
  end.
Proof.
  cbn [session]. rewrite run_bind.
  destruct (run (perform c) w) as [[[] | e] w1]; [| reflexivity].
  rewrite run_bind. unfold gets at 1. unfold run at 1. cbv beta iota.
  rewrite run_bind.
  destruct (run (session rest) w1) as [[ms | e] w2]; reflexivity.
Qed.

Lemma perform_keeps_setup (c : call) (w : World) :
  same_setup (this w) (this (snd (run (perform c) w))).
Proof.
  destruct c as [m | | | | now d].
  - rewrite run_perform_check_move.
    apply (check_move_frame (on_move (fun _ => m) w)).
  - apply same_setup_refl.
  - unfold same_setup. repeat split.
  - unfold same_setup. repeat split.
  - apply same_setup_refl.
Qed.

(** X6: whatever calls a session makes and wherever it stops, the governor
    keeps its configuration (reader, target duty cycle, feed-rate bounds,
    acceleration) and its controller keeps gains, setpoint and limits. *)
Theorem session_keeps_setup (calls : list call) (w : World) :
  same_setup (this w) (this (snd (run (session calls) w))).
Proof.
  revert w. induction calls as [| c rest IH]; intros w.
  - apply same_setup_refl.
  - rewrite run_session_cons.
    pose proof (perform_keeps_setup c w) as Hc.
    destruct (run (perform c) w) as [[[] | e] w1]; cbn [snd] in *; [| exact Hc].
    pose proof (IH w1) as Hrest.
    destruct (run (session rest) w1) as [[ms | e] w2]; cbn [snd] in *;
      exact (same_setup_trans _ _ _ Hc Hrest).
Qed.

Lemma perform_flag (c : call) (w w1 : World) :
  run (perform c) w = (Return tt, w1) ->
  scaling_enabled (this w1) = last_switch [c] (scaling_enabled (this w)).
Proof.
  destruct c as [m | | | | now d]; cbn [last_switch].
  - rewrite run_perform_check_move. intros H.
    pose proof (check_move_frame (on_move (fun _ => m) w)) as (_ & Hf & _).
    cbv zeta in Hf. rewrite H in Hf. exact Hf.
  - intros H. injection H as <-. reflexivity.
  - intros H. injection H as <-. reflexivity.
  - intros H. injection H as <-. reflexivity.
  - intros H. injection H as <-. reflexivity.
Qed.

Lemma last_switch_cons (c : call) (rest : list call) (flag : bool) :
  last_switch (c :: rest) flag = last_switch rest (last_switch [c] flag).
Proof. destruct c; reflexivity. Qed.

(** X7: when a session runs to its end, scaling is enabled exactly if its
    last switch command was [ENABLE_POWERCORE_FEED_SCALING]; with no switch
    command the flag is the one the session started with.  Moves, duty-cycle
    queries and the passing of time never change it. *)
Theorem session_flag_follows_last_switch
    (calls : list call) (w w' : World) (ms : list Move.t) :
  run (session calls) w = (Return ms, w') ->
  scaling_enabled (this w') = last_switch calls (scaling_enabled (this w)).
Proof.
  revert w ms. induction calls as [| c rest IH]; intros w ms H.
  - injection H as _ <-. reflexivity.
  - rewrite run_session_cons in H.
    destruct (run (perform c) w) as [[[] | e] w1] eqn:Hc; [| discriminate].
    destruct (run (session rest) w1) as [[ms' | e] w2] eqn:Hrest; [| discriminate].
    injection H as _ <-.
    rewrite last_switch_cons, <- (perform_flag c w w1 Hc).
    exact (IH w1 ms' Hrest).
Qed.

Lemma session_flag_follows_last_switch_witness :
  exists ms w',
    run (session busy_calls) Scenario.half_error_world = (Return ms, w') /\
    scaling_enabled (this w') = true /\
    last_switch busy_calls (scaling_enabled (this Scenario.half_error_world)) = true.
Proof.
  destruct (run (session busy_calls) Scenario.half_error_world)
    as [[ms | e] w'] eqn:H.
  - exists ms, w'. split; [reflexivity |].
    rewrite (session_flag_follows_last_switch _ _ _ _ H). split; reflexivity.
  - exfalso. vm_compute in H. discriminate H.
Defined.

Lemma disable_scaling_idle (self : t) :
  scaling_enabled self = false -> disable_scaling self = self.
Proof. destruct self. cbn. intros ->. reflexivity. Qed.

Lemma perform_idle (c : call) (w : World) :
  scaling_enabled (this w) = false ->
  is_enable c = false ->
  exists w1,
    run (perform c) w = (Return tt, w1) /\
    this w1 = this w /\
    (forall m, c = CheckMove m -> move w1 = m).
Proof.
  intros Hd Hc. destruct c as [m | | | | now d]; try discriminate Hc.
  - exists (on_move (fun _ => m) w). rewrite run_perform_check_move.
    rewrite run_check_move_disabled by exact Hd.
    repeat split. intros m' [= ->]. reflexivity.
  - eexists. split; [reflexivity |]. split; [reflexivity | discriminate].
  - eexists. split; [reflexivity |]. split; [| discriminate].
    cbn. apply disable_scaling_idle, Hd.
  - eexists. split; [reflexivity |]. split; [reflexivity | discriminate].
Qed.

(** X8: while scaling is disabled and no enable command arrives, a session
    always runs to its end (also over moves on which an enabled governor
    would raise), hands every move back exactly as it came, and leaves the
    governor, controller memory included, exactly as it was. *)
Theorem session_idle_while_disabled (calls : list call) (w : World) :
  scaling_enabled (this w) = false ->
  forallb (fun c => negb (is_enable c)) calls = true ->
  exists w',
    run (session calls) w = (Return (handed_in calls), w') /\
    this w' = this w.
Proof.
  revert w. induction calls as [| c rest IH]; intros w Hd Hcalls.
  - exists w. split; reflexivity.
  - cbn [forallb] in Hcalls. apply andb_true_iff in Hcalls as [Hc Hrest].
    apply negb_true_iff in Hc.
    destruct (perform_idle c w Hd Hc) as (w1 & Hrun & Hthis & Hmove).
    assert (scaling_enabled (this w1) = false) as Hd1 by (rewrite Hthis; exact Hd).
    destruct (IH w1 Hd1 Hrest) as (w' & Hrun' & Hthis').
    exists w'. rewrite run_session_cons, Hrun, Hrun'.
    split; [| congruence].
    destruct c as [m | | | | now d]; cbn [is_check_move handed_in];
      try reflexivity.
    rewrite (Hmove m eq_refl). reflexivity.
Qed.

Lemma session_idle_while_disabled_witness :
  scaling_enabled (this idle_world) = false /\
  forallb (fun c => negb (is_enable c)) idle_calls = true /\
  exists w',
    run (session idle_calls) idle_world = (Return (handed_in idle_calls), w') /\
    this w' = this idle_world.
Proof.
  split; [reflexivity |]. split; [reflexivity |].
  exact (session_idle_while_disabled idle_calls idle_world eq_refl eq_refl).
Defined.

(** X9: in a session that runs to its end, every move comes back either
    exactly as it was handed in or with one [set_speed] call more than it
    came with, and that call carries the configured acceleration. *)
Theorem session_moves_get_at_most_one_set_speed
    (calls : list call) (w w' : World) (ms : list Move.t) :
  run (session calls) w = (Return ms, w') ->
  Forall2 (at_most_one_set_speed (adjustment_accel (this w)))
          (handed_in calls) ms.
Proof.
  revert w ms. induction calls as [| c rest IH]; intros w ms H.
  - injection H as <- _. constructor.
  - rewrite run_session_cons in H.
    pose proof (perform_keeps_setup c w) as (_ & _ & _ & _ & Haccel & _).
    destruct (run (perform c) w) as [[[] | e] w1] eqn:Hc; [| discriminate].
    destruct (run (session rest) w1) as [[ms' | e] w2] eqn:Hrest; [| discriminate].
    injection H as <- <-. cbn [snd] in Haccel.
    pose proof (IH w1 ms' Hrest) as Hms. rewrite <- Haccel in Hms.
    destruct c as [m | | | | now d]; cbn [is_check_move handed_in];
      try exact Hms.
    constructor; [| exact Hms].
    rewrite run_perform_check_move in Hc.
    pose proof (check_move_frame (on_move (fun _ => m) w))
      as (_ & _ & _ & _ & _ & Hm).
    cbv zeta in Hm. rewrite Hc in Hm. exact Hm.
Qed.

Lemma session_moves_get_at_most_one_set_speed_witness :
  exists ms w',
    run (session busy_calls) Scenario.half_error_world = (Return ms, w') /\
    Forall2 (at_most_one_set_speed
               (adjustment_accel (this Scenario.half_error_world)))
            (handed_in busy_calls) ms.
Proof.
  destruct (run (session busy_calls) Scenario.half_error_world)
    as [[ms | e] w'] eqn:H.
  - exists ms, w'. split; [reflexivity |].
    exact (session_moves_get_at_most_one_set_speed _ _ _ _ H).
  - exfalso. vm_compute in H. discriminate H.
Defined.

Lemma enable_scaling_same_setup (a b : t) :
  same_setup a b -> enable_scaling a = enable_scaling b.
Proof.
  destruct a as [ra ta la ha aa ea [pa ia da sa oa na ea' ta']].
  destruct b as [rb tb lb hb ab eb [pb ib db sb ob nb eb' tb']].
  unfold same_setup, enable_scaling, set_scaling_enabled, set_pid_controller,
    PID.reset. cbn.
  intros (-> & -> & -> & -> & -> & -> & -> & -> & -> & ->). reflexivity.
Qed.

(** X10: enabling at the end of a session wipes the session out of the
    governor: whatever calls came before, the governor is exactly what
    [enable_scaling] would have made of the one the session started with. *)
Theorem session_then_enable_forgets_history
    (calls : list call) (w w' : World) (ms : list Move.t) :
  run (session (calls ++ [EnableScaling])) w = (Return ms, w') ->
  this w' = enable_scaling (this w).
Proof.
  revert w ms. induction calls as [| c rest IH]; intros w ms H.
  - cbn [app] in H. rewrite run_session_cons in H.
    cbn in H. injection H as _ <-. reflexivity.
  - cbn [app] in H. rewrite run_session_cons in H.
    pose proof (perform_keeps_setup c w) as Hsetup.
    destruct (run (perform c) w) as [[[] | e] w1] eqn:Hc; [| discriminate].
    destruct (run (session (rest ++ [EnableScaling])) w1)
      as [[ms' | e] w2] eqn:Hrest; [| discriminate].
    injection H as _ <-. cbn [snd] in Hsetup.
    rewrite (IH w1 ms' Hrest). symmetry.
    apply enable_scaling_same_setup, Hsetup.
Qed.

Lemma session_then_enable_forgets_history_witness :
  exists ms w',
    run (session (idle_calls ++ [EnableScaling])) idle_world = (Return ms, w') /\
    this w' = enable_scaling (this idle_world).
Proof.
  destruct (run (session (idle_calls ++ [EnableScaling])) idle_world)
    as [[ms | e] w'] eqn:H.
  - exists ms, w'. split; [reflexivity |].
    exact (session_then_enable_forgets_history _ _ _ _ H).
  - exfalso. vm_compute in H. discriminate H.
Defined.

End Sessions.

(** ** Loading a configuration *)

Section Loading.

Import PowerCore.

Lemma violates_none (v : Q) (minval maxval above below : option Q) :
  Config.violates v minval maxval above below = None ->
  (forall m, minval = Some m -> m <= v) /\
  (forall m, maxval = Some m -> v <= m) /\
  (forall a, above = Some a -> a < v) /\
  (forall b, below = Some b -> v < b).
Proof.
  unfold Config.violates, Config.bound_check, Config.or_else.
  intros H. repeat split.
  - intros m ->. destruct (Py.Qltb v m) eqn:E; [discriminate |].
    apply Qltb_ge, E.
  - intros m ->. destruct minval as [m0 |];
      [destruct (Py.Qltb v m0); [discriminate |] |];
      (destruct (Py.Qltb m v) eqn:E; [discriminate |]; apply Qltb_ge, E).
  - intros a ->.
    destruct minval as [m0 |];
      [destruct (Py.Qltb v m0); [discriminate |] |];
      (destruct maxval as [m1 |];
        [destruct (Py.Qltb m1 v); [discriminate |] |];
        (destruct (Qle_bool v a) eqn:E; [discriminate |];
         apply Qnot_le_lt; intros Hle; apply Qle_bool_iff in Hle; congruence)).
  - intros b ->.
    destruct minval as [m0 |];
      [destruct (Py.Qltb v m0); [discriminate |] |];
      (destruct maxval as [m1 |];
        [destruct (Py.Qltb m1 v); [discriminate |] |];
        (destruct above as [a |];
          [destruct (Qle_bool v a); [discriminate |] |];
          (destruct (Qle_bool b v) eqn:E; [discriminate |];
           apply Qnot_le_lt; intros Hle; apply Qle_bool_iff in Hle; congruence))).
Qed.

Lemma get_wrapper_returns {A} (parser : Config.entry -> option A)
    (to_float : A -> Q) (config : gmap string Config.entry) (opt : string)
    (default : option A) (minval maxval above below : option Q) (v : A) :
  Config.get_wrapper parser to_float config opt default minval maxval above below
  = Return v ->
  (config !! opt = None /\ default = Some v) \/
  (Config.violates (to_float v) minval maxval above below = None /\
   exists e, config !! opt = Some e /\ parser e = Some v).
Proof.
  unfold Config.get_wrapper.
  destruct (config !! opt) as [e |].
  - destruct (parser e) as [x |] eqn:Ep; [| discriminate].
    destruct (Config.violates (to_float x) minval maxval above below) eqn:Ev;
      [discriminate |].
    intros H. injection H as <-. right. split; [exact Ev |].
    exists e. split; [reflexivity | exact Ep].
  - destruct default as [d |]; [| discriminate].
    intros H. injection H as <-. left. split; reflexivity.
Qed.

Lemma reader_init_keeps_host (config : gmap string Config.entry) (h : Host) :
  snd (run (PowerCorePWMReader.init config) h) = h.
Proof.
  unfold PowerCorePWMReader.init.
  rewrite run_lift_bind. destruct (Config.get _ _); [| reflexivity].
  rewrite run_lift_bind. destruct (Config.getfloat _ _ _ _ _ _ _); [| reflexivity].
  rewrite run_lift_bind. destruct (Config.getfloat _ _ _ _ _ _ _); [| reflexivity].
  rewrite run_lift_bind. destruct (Config.getint _ _ _ _ _); reflexivity.
Qed.

(** X11: a configuration without [alrt_pin] is refused with a configuration
    error naming the option, before anything is registered: the host is
    left as it was. *)
Theorem load_config_requires_alrt_pin
    (config : gmap string Config.entry) (h : Host) :
  config !! "alrt_pin" = None ->
  run (load_config config) h
  = (Raise (ConfigError "alrt_pin" MustBeSpecified), h).
Proof.
  intros Hpin. unfold load_config, init, PowerCorePWMReader.init.
  rewrite run_bind, run_lift_bind.
  unfold Config.get, Config.get_wrapper. rewrite Hpin. reflexivity.
Qed.

Lemma load_config_requires_alrt_pin_witness :
  (∅ : gmap string Config.entry) !! "alrt_pin" = None /\
  run (load_config ∅) Scenario.boot
  = (Raise (ConfigError "alrt_pin" MustBeSpecified), Scenario.boot).
Proof.
  split; [reflexivity |].
  exact (load_config_requires_alrt_pin ∅ Scenario.boot eq_refl).
Defined.

(** X12: every governor that [load_config] returns starts enabled, with
    [0 <= target_duty_cycle <= 1], non-negative feed-rate bounds and a
    positive acceleration, and with a controller that aims at the target
    duty cycle, is limited to [0, 1] and remembers nothing; the host has
    received the connect handler and the three commands, in this order, and
    nothing else. *)
Theorem load_config_establishes
    (config : gmap string Config.entry) (h h' : Host) (pc : t) :
  run (load_config config) h = (Return pc, h') ->
  scaling_enabled pc = true /\
  0 <= target_duty_cycle pc <= 1 /\
  0 <= min_feedrate pc /\
  0 <= max_feedrate pc /\
  0 < adjustment_accel pc /\
  PID.setpoint (pid_controller pc) = target_duty_cycle pc /\
  PID.output_limits (pid_controller pc) = (0, 1) /\
  PID.integral (pid_controller pc) = 0 /\
  PID.previous_error (pid_controller pc) = None /\
  PID.previous_time (pid_controller pc) = None /\
  h' = registered h.
Proof.
  intros H. unfold load_config in H.
  apply init_return_inv in H
    as (reader & h1 & target & lo & hi & accel & kp & ki & kd
        & Hreader & Htarget & Hlo & Hhi & Haccel & _ & _ & _ & -> & ->).
  pose proof (reader_init_keeps_host config h) as Hh.
  rewrite Hreader in Hh. cbn [snd] in Hh. subst h1.
  cbn [scaling_enabled target_duty_cycle min_feedrate max_feedrate
       adjustment_accel pid_controller PID.new PID.setpoint PID.output_limits
       PID.integral PID.previous_error PID.previous_time].
  split; [reflexivity |].
  split.
  { apply get_wrapper_returns in Htarget as [[_ [= <-]] | [Hv _]].
    - split; discriminate.
    - apply violates_none in Hv as (Hmin & Hmax & _ & _).
      split; [apply (Hmin 0) | apply (Hmax 1)]; reflexivity. }
  split.
  { apply get_wrapper_returns in Hlo as [[_ [= <-]] | [Hv _]].
    - discriminate.
    - apply violates_none in Hv as (Hmin & _). apply (Hmin 0). reflexivity. }
  split.
  { apply get_wrapper_returns in Hhi as [[_ [= <-]] | [Hv _]].
    - discriminate.
    - apply violates_none in Hv as (Hmin & _). apply (Hmin 0). reflexivity. }
  split.
  { apply get_wrapper_returns in Haccel as [[_ [= <-]] | [Hv _]].
    - reflexivity.
    - apply violates_none in Hv as (_ & _ & Habove & _).
      apply (Habove 0). reflexivity. }
  repeat split.
Qed.

Lemma load_config_establishes_witness :
  run (load_config Scenario.inverted_config) Scenario.boot
  = (Return Scenario.inverted_core, registered Scenario.boot) /\
  0 <= target_duty_cycle Scenario.inverted_core <= 1 /\
  0 < adjustment_accel Scenario.inverted_core.
Proof.
  split; [exact inverted_config_accepted |].
  pose proof (load_config_establishes _ _ _ _ inverted_config_accepted)
    as (_ & Ht & _ & _ & Ha & _).
  split; [exact Ht | exact Ha].
Defined.

Lemma reader_init_return_inv
    (config : gmap string Config.entry) (h h1 : Host) (reader : PowerCorePWMReader.t) :
  run (PowerCorePWMReader.init config) h = (Return reader, h1) ->
  exists pin frequency interval ticks,
    Config.get config "alrt_pin" = Return pin /\
    Config.getfloat config "alrt_pwm_frequency" 100 None None (Some 0) None
      = Return frequency /\
    Config.getfloat config "alrt_report_interval" 0.1 None None (Some 0.1) None
      = Return interval /\
    Config.getint config "additional_timeout_ticks" 0 (Some 0) None
      = Return ticks /\
    reader = PowerCorePWMReader.mk (PWMIn.mk pin interval frequency ticks).
Proof.
  unfold PowerCorePWMReader.init. intros H.
  rewrite run_lift_bind in H.
  destruct (Config.get _ _) as [pin |] eqn:Hpin; [| discriminate].
  rewrite run_lift_bind in H.
  destruct (Config.getfloat config "alrt_pwm_frequency" _ _ _ _ _)
    as [frequency |] eqn:Hf; [| discriminate].
  rewrite run_lift_bind in H.
  destruct (Config.getfloat config "alrt_report_interval" _ _ _ _ _)
    as [interval |] eqn:Hi; [| discriminate].
  rewrite run_lift_bind in H.
  destruct (Config.getint _ _ _ _ _) as [ticks |] eqn:Hk; [| discriminate].
  injection H as <- _.
  exists pin, frequency, interval, ticks. repeat split.
Qed.

(** X13: every governor that [load_config] returns reads its duty cycle from
    a PWM input on the configured [alrt_pin], with a positive frequency, a
    report interval of at least 0.1 and a non-negative number of additional
    timeout ticks. *)
Theorem load_config_builds_a_sound_reader
    (config : gmap string Config.entry) (h h' : Host) (pc : t) :
  run (load_config config) h = (Return pc, h') ->
  let counter := PowerCorePWMReader.pwm_counter (pwm_reader pc) in
  config !! "alrt_pin" = Some (PWMIn.pin counter) /\
  0 < PWMIn.pwm_frequency counter /\
  0.1 <= PWMIn.report_interval counter /\
  (0 <= PWMIn.additional_timeout_ticks counter)%Z.
Proof.
  intros H. unfold load_config in H.
  apply init_return_inv in H
    as (reader & h1 & target & lo & hi & accel & kp & ki & kd
        & Hreader & _ & _ & _ & _ & _ & _ & _ & -> & _).
  apply reader_init_return_inv in Hreader
    as (pin & frequency & interval & ticks & Hpin & Hf & Hi & Hk & ->).
  cbn [pwm_reader PowerCorePWMReader.pwm_counter PWMIn.pin PWMIn.pwm_frequency
       PWMIn.report_interval PWMIn.additional_timeout_ticks].
  split.
  { apply get_wrapper_returns in Hpin as [[_ [=]] | [_ (e & He & [= ->])]].
    exact He. }
  split.
  { apply get_wrapper_returns in Hf as [[_ [= <-]] | [Hv _]].
    - reflexivity.
    - apply violates_none in Hv as (_ & _ & Habove & _).
      apply (Habove 0). reflexivity. }
  split.
  { apply get_wrapper_returns in Hi as [[_ [= <-]] | [Hv _]].
    - discriminate.
    - apply violates_none in Hv as (_ & _ & Habove & _).
      apply Qlt_le_weak, (Habove 0.1). reflexivity. }
  apply get_wrapper_returns in Hk as [[_ [= <-]] | [Hv _]].
  - lia.
  - apply violates_none in Hv as (Hmin & _).
    rewrite Zle_Qle. apply (Hmin 0). reflexivity.
Qed.

Lemma load_config_builds_a_sound_reader_witness :
  run (load_config Scenario.default_config) Scenario.boot
  = (Return Scenario.default_core, registered Scenario.boot) /\
  Scenario.default_config !! "alrt_pin" = Some (Config.EntryText "PA1") /\
  0 < PWMIn.pwm_frequency
        (PowerCorePWMReader.pwm_counter (pwm_reader Scenario.default_core)).
Proof.
  split; [exact default_config_accepted |].
  pose proof (load_config_builds_a_sound_reader _ _ _ _ default_config_accepted)
    as (Hpin & Hf & _).
  split; [exact Hpin | exact Hf].
Defined.

Lemma violates_unit_range (v : Q) :
  Config.violates v (Some 0) (Some 1) None None
  = if Py.Qltb v 0 then Some (BelowMinimum 0)
    else if Py.Qltb 1 v then Some (AboveMaximum 1) else None.
Proof.
  unfold Config.violates, Config.bound_check, Config.or_else.
  destruct (Py.Qltb v 0); [reflexivity |]. destruct (Py.Qltb 1 v); reflexivity.
Qed.

Lemma violates_above_only (v a : Q) :
  Config.violates v None None (Some a) None
  = if Qle_bool v a then Some (NotAbove a) else None.
Proof.
  unfold Config.violates, Config.bound_check, Config.or_else.
  destruct (Qle_bool v a); reflexivity.
Qed.

Lemma violates_unbounded (v : Q) :
  Config.violates v None None None None = None.
Proof. reflexivity. Qed.

Local Ltac enter_governor Hreader :=
  unfold load_config, init;
  rewrite ?reader_init_insert_ne by done;
  rewrite (bind_return _ _ _ _ _ Hreader), run_registrations.

Local Ltac read_as Hx :=
  rewrite run_lift_bind; rewrite ?getfloat_insert_ne by done;
  rewrite Hx; cbv beta iota.

Local Ltac read_new :=
  rewrite run_lift_bind; rewrite ?getfloat_insert_ne by done;
  rewrite getfloat_insert_eq.

(** X14: the target duty cycle is validated on its own.  Starting from any
    accepted configuration, setting [target_duty_cycle] to [target'] is
    refused when [target' < 0] or [target' > 1]; otherwise the governor is
    built as before except that its target and its controller's setpoint
    are [target']. *)
Theorem load_config_checks_target_duty_cycle
    (config : gmap string Config.entry) (h h' : Host) (pc : t) (target' : Q) :
  run (load_config config) h = (Return pc, h') ->
  let config' := <["target_duty_cycle" := Config.EntryFloat target']> config in
  (0 <= target' <= 1 ->
   run (load_config config') h
   = (Return (mk (pwm_reader pc) target' (min_feedrate pc) (max_feedrate pc)
                 (adjustment_accel pc) true
                 (PID.new (PID.Kp (pid_controller pc)) (PID.Ki (pid_controller pc))
                          (PID.Kd (pid_controller pc)) target' (0, 1))),
      h')) /\
  (target' < 0 ->
   run (load_config config') h
   = (Raise (ConfigError "target_duty_cycle" (BelowMinimum 0)), h')) /\
  (1 < target' ->
   run (load_config config') h
   = (Raise (ConfigError "target_duty_cycle" (AboveMaximum 1)), h')).
Proof.
  intros H config'. unfold load_config in H.
  apply init_return_inv in H
    as (reader & h1 & target & lo & hi & accel & kp & ki & kd
        & Hreader & _ & Hlo & Hhi & Haccel & Hkp & Hki & Hkd & -> & ->).
  unfold config'. repeat split.
  - intros [H0 H1]. apply Qltb_ge in H0, H1.
    enter_governor Hreader.
    read_new. rewrite violates_unit_range, H0, H1. cbv beta iota.
    read_as Hlo. read_as Hhi. read_as Haccel.
    read_as Hkp. read_as Hki. read_as Hkd. reflexivity.
  - intros H0. apply Qltb_lt in H0.
    enter_governor Hreader.
    read_new. rewrite violates_unit_range, H0. reflexivity.
  - intros H1. assert (Py.Qltb target' 0 = false) as H0 by (apply Qltb_ge; lra).
    apply Qltb_lt in H1.
    enter_governor Hreader.
    read_new. rewrite violates_unit_range, H0, H1. reflexivity.
Qed.

Lemma load_config_checks_target_duty_cycle_witness :
  run (load_config Scenario.default_config) Scenario.boot
  = (Return Scenario.default_core, registered Scenario.boot) /\
  1 < 1.5 /\
  run (load_config
         (<["target_duty_cycle" := Config.EntryFloat 1.5]> Scenario.default_config))
      Scenario.boot
  = (Raise (ConfigError "target_duty_cycle" (AboveMaximum 1)),
     registered Scenario.boot).
Proof.
  assert (1 < 1.5) as Hbig by reflexivity.
  split; [exact default_config_accepted |]. split; [exact Hbig |].
  exact (proj2 (proj2 (load_config_checks_target_duty_cycle
                         _ _ _ _ 1.5 default_config_accepted)) Hbig).
Defined.

(** X15: the adjustment acceleration must be strictly positive.  Starting
    from any accepted configuration, setting [powercore_adjustment_accel] to
    [accel'] is refused when [accel' <= 0], zero included; otherwise the
    governor is built as before with this acceleration. *)
Theorem load_config_checks_adjustment_accel
    (config : gmap string Config.entry) (h h' : Host) (pc : t) (accel' : Q) :
  run (load_config config) h = (Return pc, h') ->
  let config' :=
    <["powercore_adjustment_accel" := Config.EntryFloat accel']> config in
  (0 < accel' ->
   run (load_config config') h
   = (Return (mk (pwm_reader pc) (target_duty_cycle pc) (min_feedrate pc)
                 (max_feedrate pc) accel' (scaling_enabled pc)
                 (pid_controller pc)),
      h')) /\
  (accel' <= 0 ->
   run (load_config config') h
   = (Raise (ConfigError "powercore_adjustment_accel" (NotAbove 0)), h')).
Proof.
  intros H config'. unfold load_config in H.
  apply init_return_inv in H
    as (reader & h1 & target & lo & hi & accel & kp & ki & kd
        & Hreader & Htarget & Hlo & Hhi & _ & Hkp & Hki & Hkd & -> & ->).
  unfold config'. split.
  - intros Hpos.
    assert (Qle_bool accel' 0 = false) as Hb.
    { destruct (Qle_bool accel' 0) eqn:E; [| reflexivity].
      apply Qle_bool_iff in E. lra. }
    enter_governor Hreader.
    read_as Htarget. read_as Hlo. read_as Hhi.
    read_new. rewrite violates_above_only, Hb. cbv beta iota.
    read_as Hkp. read_as Hki. read_as Hkd. reflexivity.
  - intros Hle. apply Qle_bool_iff in Hle.
    enter_governor Hreader.
    read_as Htarget. read_as Hlo. read_as Hhi.
    read_new. rewrite violates_above_only, Hle. reflexivity.
Qed.

Lemma load_config_checks_adjustment_accel_witness :
  run (load_config Scenario.default_config) Scenario.boot
  = (Return Scenario.default_core, registered Scenario.boot) /\
  0 <= 0 /\
  run (load_config
         (<["powercore_adjustment_accel" := Config.EntryFloat 0]>
            Scenario.default_config))
      Scenario.boot
  = (Raise (ConfigError "powercore_adjustment_accel" (NotAbove 0)),
     registered Scenario.boot).
Proof.
  assert (0 <= 0) as Hzero by discriminate.
  split; [exact default_config_accepted |]. split; [exact Hzero |].
  exact (proj2 (load_config_checks_adjustment_accel
                  _ _ _ _ 0 default_config_accepted) Hzero).
Defined.

(** X16: the gains are not validated at all.  Starting from any accepted
    configuration, any three numbers given as [kp], [ki] and [kd], negative
    ones and zeros included, are accepted and become the controller's
    gains; nothing else about the governor changes. *)
Theorem load_config_accepts_any_gains
    (config : gmap string Config.entry) (h h' : Host) (pc : t) (kp' ki' kd' : Q) :
  run (load_config config) h = (Return pc, h') ->
  run (load_config
         (<["kp" := Config.EntryFloat kp']>
            (<["ki" := Config.EntryFloat ki']>
               (<["kd" := Config.EntryFloat kd']> config)))) h
  = (Return (mk (pwm_reader pc) (target_duty_cycle pc) (min_feedrate pc)
                (max_feedrate pc) (adjustment_accel pc) (scaling_enabled pc)
                (PID.new kp' ki' kd' (target_duty_cycle pc) (0, 1))),
     h').
Proof.
  intros H. unfold load_config in H.
  apply init_return_inv in H
    as (reader & h1 & target & lo & hi & accel & kp & ki & kd
        & Hreader & Htarget & Hlo & Hhi & Haccel & _ & _ & _ & -> & ->).
  enter_governor Hreader.
  read_as Htarget. read_as Hlo. read_as Hhi. read_as Haccel.
  read_new. rewrite violates_unbounded. cbv beta iota.
  read_new. rewrite violates_unbounded. cbv beta iota.
  read_new. rewrite violates_unbounded. reflexivity.
Qed.

Lemma load_config_accepts_any_gains_witness :
  run (load_config Scenario.default_config) Scenario.boot
  = (Return Scenario.default_core, registered Scenario.boot) /\
  exists pc,
    run (load_config
           (<["kp" := Config.EntryFloat (-2)]>
              (<["ki" := Config.EntryFloat 0]>
                 (<["kd" := Config.EntryFloat (-1)]> Scenario.default_config))))
        Scenario.boot
    = (Return pc, registered Scenario.boot) /\
    PID.Kp (pid_controller pc) = -2.
Proof.
  split; [exact default_config_accepted |].
  eexists. split.
  - exact (load_config_accepts_any_gains _ _ _ _ (-2) 0 (-1)
             default_config_accepted).
  - reflexivity.
Defined.

End Loading.
